(** * Mirage / harmonyqml model items

    A shallow embedding of the record classes of
    [src/backend/models/items.py] (the [ModelItem] dataclasses and their
    [__lt__] sort rules, [Event.serialized]) and of
    [harmonyqml/backend/model/items.py] (the [ListItem] classes with their
    [_required_init_values] and [_constant] tables). *)

From Stdlib Require Import ZArith NArith List Bool Lia Sorted Permutation.
From Stdlib Require Import Ascii String.
From Stdlib Require PrimFloat.
From stdpp Require Import gmap strings list fin_maps.

Local Open Scope Z_scope.

(** ** The Python values the records are made of *)

(** A Python [str] is a sequence of Unicode code points. *)
Definition str := list N.

(** ASCII literals, for writing examples. *)
Definition of_ascii (s : string) : str :=
  map N_of_ascii (list_ascii_of_string s).

(** [x or y] on strings: the empty string is falsy. *)
Definition str_or (x y : str) : str :=
  match x with
  | [] => y
  | _ :: _ => x
  end.

(** [s[1:]]: the slice is empty when [s] is. *)
Definition slice_from_1 (s : str) : str := drop 1 s.

(** A naive [datetime], as microseconds since the epoch; [timedelta]
    likewise.  [ZeroDate = datetime.fromtimestamp(0)]. *)
Definition datetime := Z.
Definition timedelta := Z.
Definition ZeroDate : datetime := 0.

(** A reference to an object the records only carry around
    ([asyncio.Task], [nio.Event], an exception class, ...). *)
Definition pyobj := N.
Definition UUID := N.

(** [str.lower()].  Its Unicode tables are not part of the repository:
    the development is parametric in it. *)
Class Lower := lower : str -> str.

(** The restriction of [str.lower()] to ASCII text: it agrees with Python
    on every string whose code points are below 128. *)
Definition ascii_lower_char (c : N) : N :=
  if ((65 <=? c) && (c <=? 90))%N then (c + 32)%N else c.
Definition ascii_lower : Lower := map ascii_lower_char.

(** *** Rich comparison

    [==] and [<] as the records' sort rules use them: on [bool], [int] and
    [datetime] the usual order, on [str] and tuples the lexicographic one
    (the first position at which the operands differ under [==] decides,
    by [<]; a proper prefix is smaller). *)
Class PyOrd (A : Type) := {
  py_eqb : A -> A -> bool;
  py_ltb : A -> A -> bool
}.

#[global] Instance bool_PyOrd : PyOrd bool := {|
  py_eqb := Bool.eqb;
  py_ltb := fun x y => negb x && y
|}.

#[global] Instance Z_PyOrd : PyOrd Z := {|
  py_eqb := Z.eqb;
  py_ltb := Z.ltb
|}.

#[global] Instance N_PyOrd : PyOrd N := {|
  py_eqb := N.eqb;
  py_ltb := N.ltb
|}.

Fixpoint seq_eqb {A} `{PyOrd A} (x y : list A) : bool :=
  match x, y with
  | [], [] => true
  | a :: x', b :: y' => py_eqb a b && seq_eqb x' y'
  | _, _ => false
  end.

Fixpoint seq_ltb {A} `{PyOrd A} (x y : list A) : bool :=
  match x, y with
  | [], [] => false
  | [], _ :: _ => true
  | _ :: _, [] => false
  | a :: x', b :: y' => if py_eqb a b then seq_ltb x' y' else py_ltb a b
  end.

#[global] Instance seq_PyOrd {A} `{PyOrd A} : PyOrd (list A) := {|
  py_eqb := seq_eqb;
  py_ltb := seq_ltb
|}.

(** Tuples are nested pairs [(a, b, c, d) = (((a, b), c), d)]; comparing
    them pair by pair is the left-to-right lexicographic comparison. *)
#[global] Instance tuple_PyOrd {A B} `{PyOrd A} `{PyOrd B} : PyOrd (A * B) := {|
  py_eqb := fun x y => py_eqb (fst x) (fst y) && py_eqb (snd x) (snd y);
  py_ltb := fun x y =>
    if py_eqb (fst x) (fst y) then py_ltb (snd x) (snd y)
    else py_ltb (fst x) (fst y)
|}.

(** [x > y] is the reflected [y < x] on all of these types. *)
Definition py_gtb {A} `{PyOrd A} (x y : A) : bool := py_ltb y x.

Infix "<?>" := py_ltb (at level 70, no associativity).
Infix ">?<" := py_gtb (at level 70, no associativity).

(** ** The dataclasses of [src/backend/models/items.py] *)

Inductive TypeSpecifier := Unset | ProfileChange | MembershipChange.

Inductive UploadStatus := Uploading | Caching | Error.

Module Account.
Record t := {
  id : str;
  display_name : str;
  avatar_url : str;
  first_sync_done : bool;
  profile_updated : datetime
}.

Section Compare.
Context `{Lower}.

(** The key [__lt__] compares: the display name or the user id
    without its first character, lower-cased. *)
Definition name (self : t) : str :=
  str_or (display_name self) (slice_from_1 (id self)).

Definition lt (self other : t) : bool :=
  lower (name self) <?> lower (name other).
End Compare.
End Account.

Module Room.
Record t := {
  id : str;
  given_name : str;
  display_name : str;
  main_alias : str;
  avatar_url : str;
  plain_topic : str;
  topic : str;
  inviter_id : str;
  inviter_name : str;
  inviter_avatar : str;
  left : bool;
  typing_members : list str;
  federated : bool;
  encrypted : bool;
  invite_required : bool;
  guests_allowed : bool;
  can_invite : bool;
  can_send_messages : bool;
  can_set_name : bool;
  can_set_topic : bool;
  can_set_avatar : bool;
  can_set_encryption : bool;
  can_set_join_rules : bool;
  can_set_guest_access : bool;
  last_event_date : datetime
}.

Section Compare.
Context `{Lower}.

(** The last key [__lt__] compares, before lower-casing. *)
Definition name (self : t) : str :=
  str_or (display_name self) (id self).

Definition lt (self other : t) : bool :=
  (left self, inviter_id other, last_event_date other,
   lower (name self))
  <?>
  (left other, inviter_id self, last_event_date self,
   lower (name other)).
End Compare.
End Room.

Module Member.
Record t := {
  id : str;
  display_name : str;
  avatar_url : str;
  typing : bool;
  power_level : Z;
  invited : bool;
  profile_updated : datetime
}.

Section Compare.
Context `{Lower}.

Definition name (self : t) : str :=
  str_or (display_name self) (slice_from_1 (id self)).

Definition lt (self other : t) : bool :=
  (invited self, power_level other, lower (name self))
  <?>
  (invited other, power_level self, lower (name other)).
End Compare.

Definition filter_string (self : t) : str := display_name self.
End Member.

Module Upload.
Record t := {
  id : UUID;
  task : pyobj;
  monitor : pyobj;
  filepath : str;
  total_size : Z;
  uploaded : Z;
  speed : PrimFloat.float;
  time_left : timedelta;
  status : UploadStatus;
  error : pyobj;
  error_args : list pyobj;
  start_date : datetime
}.

Definition lt (self other : t) : bool :=
  start_date self >?< start_date other.
End Upload.

Module Event.
Record t := {
  id : str;
  event_id : str;
  source : option pyobj;
  date : datetime;
  sender_id : str;
  sender_name : str;
  sender_avatar : str;
  content : str;
  inline_content : str;
  reason : str;
  type_specifier : TypeSpecifier;
  target_id : str;
  target_name : str;
  target_avatar : str;
  is_local_echo : bool;
  local_event_type : option pyobj;
  media_url : str;
  media_title : str;
  media_width : Z;
  media_height : Z;
  media_duration : Z;
  media_size : Z;
  media_mime : str;
  media_crypt_dict : gmap str pyobj;
  thumbnail_url : str;
  thumbnail_width : Z;
  thumbnail_height : Z;
  thumbnail_crypt_dict : gmap str pyobj
}.

Definition lt (self other : t) : bool :=
  date self >?< date other.
End Event.

(** ** Sorting with a record's [__lt__]

    Modelled from the spec: the ordered collection ([ListModel];
    [list_model.py] is not among the sources).  "Sort order is the Record
    type's comparison function"; "if no such Record exists, insert at the
    sorted position", found by "a stable binary search using the order
    comparison".  The search only ever asks [x < y]. *)
Section Sorting.
Context {A : Type} (lt : A -> A -> bool).

(** The sorted insertion: [x] goes before the first [y] with [x < y],
    after the records it ties with. *)
Fixpoint insort (x : A) (l : list A) : list A :=
  match l with
  | [] => [x]
  | y :: l' => if lt x y then x :: y :: l' else y :: insort x l'
  end.

(** The index at which [insort] puts [x]. *)
Fixpoint bisect (x : A) (l : list A) : nat :=
  match l with
  | [] => 0%nat
  | y :: l' => if lt x y then 0%nat else S (bisect x l')
  end.

(** The collection after the records of [l] were inserted one by
    one. *)
Definition sorted (l : list A) : list A :=
  fold_left (fun acc x => insort x acc) l [].

(** No element sorts before one that stands earlier in the list. *)
Definition in_order (l : list A) : Prop :=
  StronglySorted (fun x y => lt y x = false) l.

(** Every element sorts strictly before all later ones. *)
Definition strictly_in_order (l : list A) : Prop :=
  StronglySorted (fun x y => lt x y = true) l.

(** The list after inserting [x] at index [i]. *)
Definition insert_at (i : nat) (x : A) (l : list A) : list A :=
  take i l ++ x :: drop i l.
End Sorting.

(** ** The sort orders as the documentation words them

    These follow the prose ([Room.__lt__]'s docstring), not the code; they
    are what the code is compared with. *)
Module RoomDoc.
Inductive state := Invited | Joined | Left.

(** "Invited rooms are first, then joined rooms, then left rooms." *)
Definition rank (s : state) : Z :=
  match s with
  | Invited => 0
  | Joined => 1
  | Left => 2
  end.

(** A room we left is a left room whether or not it still carries an
    inviter; otherwise an inviter makes it an invitation. *)
Definition state_of (r : Room.t) : state :=
  if Room.left r then Left
  else match Room.inviter_id r with
       | [] => Joined
       | _ :: _ => Invited
       end.

(** State, then descending last event date, then lower-cased name. *)
Definition lt `{Lower} (self other : Room.t) : bool :=
  (rank (state_of self), Room.last_event_date other,
   lower (Room.name self))
  <?>
  (rank (state_of other), Room.last_event_date self,
   lower (Room.name other)).
End RoomDoc.

Module MemberDoc.
(** "Sort by power level, then by display name/user ID", and by nothing
    else. *)
Definition lt `{Lower} (self other : Member.t) : bool :=
  (Member.power_level other, lower (Member.name self))
  <?>
  (Member.power_level self, lower (Member.name other)).
End MemberDoc.

(** ** Records as the interpreter sees them: named fields, checked when
    the object is built *)

Inductive value :=
| VNone
| VBool (b : bool)
| VInt (z : Z)
| VStr (s : str)
| VDate (d : datetime)
| VTimedelta (d : timedelta)
| VStrList (l : list str)
| VDict (d : gmap str pyobj)
| VTuple (l : list pyobj)
| VEnum (name : string)
| VObj (o : pyobj).

(** [bool(v)]. *)
Definition truthy (v : value) : bool :=
  match v with
  | VNone => false
  | VBool b => b
  | VInt z => negb (z =? 0)
  | VStr s => match s with [] => false | _ => true end
  | VStrList l => match l with [] => false | _ => true end
  | VTuple l => match l with [] => false | _ => true end
  | VDict d => negb (bool_decide (d = ∅))
  | VTimedelta d => negb (d =? 0)
  | VDate _ | VEnum _ | VObj _ => true
  end.

Inductive error :=
| TypeError        (* raised by a dataclass' generated [__init__] *)
| SchemaError
| ImmutableFieldError
| KeyError (key : string).

Inductive result (A : Type) :=
| Ok (a : A)
| Err (e : error).
Arguments Ok {A} a.
Arguments Err {A} e.

(** An exception ends the computation; [x ← m; k] runs [k] after [m]
    returned. *)
#[global] Instance result_ret : MRet result := fun A a => Ok a.
#[global] Instance result_bind : MBind result := fun A B k m =>
  match m with
  | Ok a => k a
  | Err e => Err e
  end.

(** An object's attributes, and the keyword arguments of a call. *)
Abbreviation attrs := (gmap string value).

(** How a field gets its value when the call does not supply one. *)
Inductive default :=
| NoDefault                     (* [= field()] *)
| Value (v : value)             (* [= v], [default_factory] of a literal *)
| Now.                          (* [default_factory=datetime.now] *)

Record field_decl := {
  fname : string;
  fdefault : default;
  finit : bool                  (* [False] for [field(init=False, ...)] *)
}.

Definition fld (n : string) (d : default) : field_decl :=
  {| fname := n; fdefault := d; finit := true |}.

Definition has_default (f : field_decl) : bool :=
  match fdefault f with
  | NoDefault => false
  | _ => true
  end.

Definition default_value (now : datetime) (d : default) : option value :=
  match d with
  | NoDefault => None
  | Value v => Some v
  | Now => Some (VDate now)
  end.

(** A record class: its declared fields, the fields a construction must
    supply, the fields that cannot be written afterwards, and what runs
    after the fields are stored. *)
Record class := {
  fields : list field_decl;
  required : list string;
  constant : list string;
  post_init : attrs -> attrs
}.

Definition init_names (c : class) : list string :=
  map fname (filter (fun f => finit f) (fields c)).

(** The attributes a construction stores: for each declared field the
    supplied value if it is an [__init__] parameter that was passed,
    else its default. *)
Definition store_fields (now : datetime) (fs : list field_decl)
    (kwargs : attrs) : attrs :=
  foldr (fun f acc =>
           match (if finit f then kwargs !! fname f else None) with
           | Some v => <[fname f := v]> acc
           | None =>
               match default_value now (fdefault f) with
               | Some v => <[fname f := v]> acc
               | None => acc
               end
           end) ∅ fs.

Definition unexpected (c : class) (kwargs : attrs) : list string :=
  filter (fun k => bool_decide (k ∉ init_names c)) (map fst (map_to_list kwargs)).

Definition missing (c : class) (kwargs : attrs) : list string :=
  filter (fun k => bool_decide (kwargs !! k = None)) (required c).

(** Calling a class with keyword arguments.  [raise_] is the exception
    the class raises for a bad call. *)
Definition construct_with (raise_ : error) (c : class) (now : datetime)
    (kwargs : attrs) : result attrs :=
  match unexpected c kwargs, missing c kwargs with
  | [], [] => Ok (post_init c (store_fields now (fields c) kwargs))
  | _, _ => Err raise_
  end.

(** *** [@dataclass]

    The generated [__init__] takes the fields in declaration order; those
    declared with a bare [field()] have no default and are required. It
    raises [TypeError] on a missing required argument and on an unexpected
    keyword. No field is declared constant: the decorator is a plain
    [@dataclass], not a frozen one. *)
Definition dataclass (fs : list field_decl) (post : attrs -> attrs) : class :=
  {| fields := fs;
     required := map fname (filter (fun f => finit f && negb (has_default f)) fs);
     constant := [];
     post_init := post |}.

Definition no_post_init (a : attrs) : attrs := a.

Definition empty_str : value := VStr [].

Definition Account_class : class :=
  dataclass
    [ fld "id" NoDefault;
      fld "display_name" (Value empty_str);
      fld "avatar_url" (Value empty_str);
      fld "first_sync_done" (Value (VBool false));
      fld "profile_updated" (Value (VDate ZeroDate)) ]
    no_post_init.

Definition Room_class : class :=
  dataclass
    [ fld "id" NoDefault;
      fld "given_name" (Value empty_str);
      fld "display_name" (Value empty_str);
      fld "main_alias" (Value empty_str);
      fld "avatar_url" (Value empty_str);
      fld "plain_topic" (Value empty_str);
      fld "topic" (Value empty_str);
      fld "inviter_id" (Value empty_str);
      fld "inviter_name" (Value empty_str);
      fld "inviter_avatar" (Value empty_str);
      fld "left" (Value (VBool false));
      fld "typing_members" (Value (VStrList []));
      fld "federated" (Value (VBool true));
      fld "encrypted" (Value (VBool false));
      fld "invite_required" (Value (VBool true));
      fld "guests_allowed" (Value (VBool true));
      fld "can_invite" (Value (VBool false));
      fld "can_send_messages" (Value (VBool false));
      fld "can_set_name" (Value (VBool false));
      fld "can_set_topic" (Value (VBool false));
      fld "can_set_avatar" (Value (VBool false));
      fld "can_set_encryption" (Value (VBool false));
      fld "can_set_join_rules" (Value (VBool false));
      fld "can_set_guest_access" (Value (VBool false));
      fld "last_event_date" (Value (VDate ZeroDate)) ]
    no_post_init.

Definition Member_class : class :=
  dataclass
    [ fld "id" NoDefault;
      fld "display_name" (Value empty_str);
      fld "avatar_url" (Value empty_str);
      fld "typing" (Value (VBool false));
      fld "power_level" (Value (VInt 0));
      fld "invited" (Value (VBool false));
      fld "profile_updated" (Value (VDate ZeroDate)) ]
    no_post_init.

(** [type(None)], the default of [Upload.error]. *)
Definition NoneType : pyobj := 0%N.

Definition Upload_class : class :=
  dataclass
    [ fld "id" NoDefault;
      fld "task" NoDefault;
      fld "monitor" NoDefault;
      fld "filepath" NoDefault;
      fld "total_size" (Value (VInt 0));
      fld "uploaded" (Value (VInt 0));
      fld "speed" (Value (VInt 0));
      fld "time_left" (Value (VTimedelta 0));
      fld "status" (Value (VEnum "Uploading"));
      fld "error" (Value (VObj NoneType));
      fld "error_args" (Value (VTuple []));
      {| fname := "start_date"; fdefault := Now; finit := false |} ]
    no_post_init.

(** [HTML_PROCESSOR.filter(content, inline=True)], from
    [backend/html_markdown.py]: an external collaborator. *)
Class HtmlFilter := html_filter_inline : value -> value.

Section EventClass.
Context `{HtmlFilter}.

(** [Event.__post_init__]: an empty [inline_content] is derived from
    [content]. *)
Definition Event_post_init (self : attrs) : attrs :=
  match self !! "inline_content", self !! "content" with
  | Some inline, Some content =>
      if truthy inline then self
      else <["inline_content" := html_filter_inline content]> self
  | _, _ => self
  end.

Definition Event_class : class :=
  dataclass
    [ fld "id" NoDefault;
      fld "event_id" NoDefault;
      fld "source" NoDefault;
      fld "date" NoDefault;
      fld "sender_id" NoDefault;
      fld "sender_name" NoDefault;
      fld "sender_avatar" NoDefault;
      fld "content" (Value empty_str);
      fld "inline_content" (Value empty_str);
      fld "reason" (Value empty_str);
      fld "type_specifier" (Value (VEnum "Unset"));
      fld "target_id" (Value empty_str);
      fld "target_name" (Value empty_str);
      fld "target_avatar" (Value empty_str);
      fld "is_local_echo" (Value (VBool false));
      fld "local_event_type" (Value VNone);
      fld "media_url" (Value empty_str);
      fld "media_title" (Value empty_str);
      fld "media_width" (Value (VInt 0));
      fld "media_height" (Value (VInt 0));
      fld "media_duration" (Value (VInt 0));
      fld "media_size" (Value (VInt 0));
      fld "media_mime" (Value empty_str);
      fld "media_crypt_dict" (Value (VDict ∅));
      fld "thumbnail_url" (Value empty_str);
      fld "thumbnail_width" (Value (VInt 0));
      fld "thumbnail_height" (Value (VInt 0));
      fld "thumbnail_crypt_dict" (Value (VDict ∅)) ]
    Event_post_init.
End EventClass.

Definition Device_class : class :=
  dataclass
    [ fld "id" NoDefault;
      fld "ed25519_key" NoDefault;
      fld "trusted" (Value (VBool false));
      fld "blacklisted" (Value (VBool false));
      fld "display_name" (Value empty_str);
      fld "last_seen_ip" (Value empty_str);
      fld "last_seen_date" (Value empty_str) ]
    no_post_init.

(** ** The [ListItem] classes of [harmonyqml/backend/model/items.py]

    Each class states [_required_init_values] and [_constant] itself.
    The class-level defaults [ListModel()], [QSortFilterProxyModel()],
    [QDateTime()], [[]] and [{}] are objects made once, when the class
    is defined. *)
Module Harmony.
Definition ListModel_0 : value := VObj 1%N.
Definition ListModel_1 : value := VObj 2%N.
Definition QSortFilterProxyModel_0 : value := VObj 3%N.
Definition ListModel_2 : value := VObj 4%N.
Definition QDateTime_0 : value := VObj 5%N.
Definition ListModel_3 : value := VObj 6%N.

Definition Account : class :=
  {| fields := [ fld "userId" (Value empty_str);
                 fld "roomCategories" (Value ListModel_0) ];
     required := ["userId"; "roomCategories"];
     constant := ["userId"; "roomCategories"];
     post_init := no_post_init |}.

Definition RoomCategory : class :=
  {| fields := [ fld "name" (Value empty_str);
                 fld "rooms" (Value ListModel_1);
                 fld "sortedRooms" (Value QSortFilterProxyModel_0) ];
     required := ["name"; "rooms"; "sortedRooms"];
     constant := ["name"; "rooms"; "sortedRooms"];
     post_init := no_post_init |}.

Definition Room : class :=
  {| fields := [ fld "roomId" (Value empty_str);
                 fld "displayName" (Value empty_str);
                 fld "topic" (Value VNone);
                 fld "lastEventDateTime" (Value VNone);
                 fld "typingMembers" (Value (VStrList []));
                 fld "members" (Value ListModel_2);
                 fld "inviter" (Value VNone);
                 fld "leftEvent" (Value VNone) ];
     required := ["roomId"; "displayName"; "members"];
     constant := ["roomId"; "members"];
     post_init := no_post_init |}.

Definition RoomEvent : class :=
  {| fields := [ fld "eventId" (Value empty_str);
                 fld "type" (Value empty_str);
                 fld "dict" (Value (VDict ∅));
                 fld "dateTime" (Value QDateTime_0);
                 fld "isLocalEcho" (Value (VBool false)) ];
     required := ["eventId"; "type"; "dict"; "dateTime"];
     constant := ["type"];
     post_init := no_post_init |}.

Definition User : class :=
  {| fields := [ fld "userId" (Value empty_str);
                 fld "displayName" (Value VNone);
                 fld "avatarUrl" (Value VNone);
                 fld "statusMessage" (Value VNone);
                 fld "devices" (Value ListModel_3) ];
     required := ["userId"; "devices"];
     constant := ["userId"; "devices"];
     post_init := no_post_init |}.

(** [Trust.undecided]. *)
Definition Device : class :=
  {| fields := [ fld "deviceId" (Value empty_str);
                 fld "ed25519Key" (Value empty_str);
                 fld "displayName" (Value VNone);
                 fld "trust" (Value (VEnum "undecided"));
                 fld "lastSeenIp" (Value VNone);
                 fld "lastSeenDate" (Value VNone) ];
     required := ["deviceId"; "ed25519Key"];
     constant := ["deviceId"; "ed25519Key"];
     post_init := no_post_init |}.

Definition classes : list class :=
  [Account; RoomCategory; Room; RoomEvent; User; Device].
End Harmony.

(** ** Construction and attribute writes *)

(** A dataclass call with keyword arguments: the argument check of the
    generated [__init__], which raises [TypeError].  [__post_init__] is
    taken to return; what the HTML filter it calls for an [Event] may
    raise is outside this model. *)
Definition dataclass_construct (c : class) (now : datetime)
    (kwargs : attrs) : result attrs :=
  construct_with TypeError c now kwargs.

(** Modelled from the spec: [ListItem.__init__] ([list_item.py] is not
    among the sources).  "[construct(fields)] fails with [SchemaError] if
    any required field is missing; fails with [SchemaError] if an unknown
    field is supplied."  No [ListItem] default reads the clock. *)
Definition ListItem_construct (c : class) (kwargs : attrs) : result attrs :=
  construct_with SchemaError c ZeroDate kwargs.

Inductive kind := Dataclass | ListItem.

Definition construct (k : kind) (c : class) (now : datetime)
    (kwargs : attrs) : result attrs :=
  match k with
  | Dataclass => dataclass_construct c now kwargs
  | ListItem => ListItem_construct c kwargs
  end.

(** What a failed construction raises. *)
Definition construction_error (e : error) : Prop :=
  e = TypeError \/ e = SchemaError.

(** Every record class of the two files. *)
Definition record_classes `{HtmlFilter} : list (kind * class) :=
  [ (Dataclass, Account_class); (Dataclass, Room_class);
    (Dataclass, Member_class); (Dataclass, Upload_class);
    (Dataclass, Event_class); (Dataclass, Device_class);
    (ListItem, Harmony.Account); (ListItem, Harmony.RoomCategory);
    (ListItem, Harmony.Room); (ListItem, Harmony.RoomEvent);
    (ListItem, Harmony.User); (ListItem, Harmony.Device) ].

(** The change event of a successful write, as a subscriber of the
    record receives it: "[(field, old, new)]". *)
Record change_event := {
  ev_field : string;
  ev_old : option value;
  ev_new : value
}.

(** A live record: its attributes and the events its subscribers got. *)
Record live := {
  live_attrs : attrs;
  live_events : list change_event
}.

(** Modelled from the spec: the attribute write of a constructed record
    ([ListItem]'s for the harmonyqml classes, [ModelItem]'s for the
    dataclasses; neither [list_item.py] nor [model_item.py] is among the
    sources).  "[set(field, value)] fails with [ImmutableFieldError] if
    [field] is constant and the Record was already constructed; otherwise
    stores the value and emits a [...] change event".  The fields that
    are constant are those the class declares so: the [_constant] table
    of a [ListItem] class, none for a dataclass, for which Python
    generates no [__setattr__] unless it is declared frozen. *)
Definition set_field (c : class) (f : string) (v : value) (r : live)
    : live * result unit :=
  if bool_decide (f ∈ constant c) then (r, Err ImmutableFieldError)
  else
    ({| live_attrs := <[f := v]> (live_attrs r);
        live_events :=
          live_events r ++
          [ {| ev_field := f;
               ev_old := live_attrs r !! f;
               ev_new := v |} ] |},
     Ok tt).


(** ** [Event.serialized] *)

(** [del dct[key]]: [KeyError] when the key is not there. *)
Definition py_del (key : string) (dct : attrs) : result attrs :=
  match dct !! key with
  | Some _ => Ok (delete key dct)
  | None => Err (KeyError key)
  end.

Section Serialized.
(** [ModelItem.serialized] ([model_item.py] is not among the sources):
    the dictionary [super().serialized] hands to [Event.serialized]. *)
Variable super_serialized : Event.t -> attrs.

Definition Event_serialized (self : Event.t) : result attrs :=
  dct ← Ok (super_serialized self);
  dct ← py_del "source" dct;
  dct ← py_del "local_event_type" dct;
  Ok dct.
End Serialized.

(** ** Predicates the properties are stated with *)

(** A comparison that orders any two records with distinct identity keys
    one way or the other. *)
Definition decides_distinct_ids {A K : Type} (id : A -> K)
    (lt : A -> A -> bool) : Prop :=
  forall r1 r2, id r1 <> id r2 -> xorb (lt r1 r2) (lt r2 r1) = true.

(** The sort keys of each record type, in comparison order. *)
Definition Account_key `{Lower} (a : Account.t) : str :=
  lower (Account.name a).
Definition Room_key `{Lower} (r : Room.t) : bool * str * datetime * str :=
  (Room.left r, Room.inviter_id r, Room.last_event_date r,
   lower (Room.name r)).
Definition Member_key `{Lower} (m : Member.t) : bool * Z * str :=
  (Member.invited m, Member.power_level m, lower (Member.name m)).
Definition Upload_key (u : Upload.t) : datetime := Upload.start_date u.
Definition Event_key (e : Event.t) : datetime := Event.date e.

(** Neither record sorts before the other. *)
Definition tied {A} (lt : A -> A -> bool) (x y : A) : Prop :=
  lt x y = false /\ lt y x = false.


(** The laws of a well-behaved [==] and [<]. *)
Class PyOrdLaws (A : Type) `{PyOrd A} := {
  py_eqb_eq : forall x y : A, py_eqb x y = true <-> x = y;
  py_ltb_irrefl : forall x : A, py_ltb x x = false;
  py_ltb_asym : forall x y : A, py_ltb x y = true -> py_ltb y x = false;
  py_ltb_connex : forall x y : A,
      py_ltb x y = false -> py_ltb y x = false -> x = y
}.

(** The four members of the [upsert] scenario: only [id] and
    [power_level] are passed, the rest are the dataclass defaults. *)
Definition member (id : string) (power_level : Z) : Member.t :=
  {| Member.id := of_ascii id;
     Member.display_name := [];
     Member.avatar_url := [];
     Member.typing := false;
     Member.power_level := power_level;
     Member.invited := false;
     Member.profile_updated := ZeroDate |}.

Definition member_a := member "a" 0.
Definition member_b := member "b" 50.
Definition member_c := member "c" 100.
Definition member_d := member "d" 75.

(** ** Example records

    Built the way a producer builds them: the required fields are passed,
    every other field keeps its dataclass default. *)

Definition account (id display_name : string) : Account.t :=
  {| Account.id := of_ascii id;
     Account.display_name := of_ascii display_name;
     Account.avatar_url := [];
     Account.first_sync_done := false;
     Account.profile_updated := ZeroDate |}.

Definition room (id inviter_id : string) (left : bool)
    (last_event_date : datetime) : Room.t :=
  {| Room.id := of_ascii id;
     Room.given_name := [];
     Room.display_name := [];
     Room.main_alias := [];
     Room.avatar_url := [];
     Room.plain_topic := [];
     Room.topic := [];
     Room.inviter_id := of_ascii inviter_id;
     Room.inviter_name := [];
     Room.inviter_avatar := [];
     Room.left := left;
     Room.typing_members := [];
     Room.federated := true;
     Room.encrypted := false;
     Room.invite_required := true;
     Room.guests_allowed := true;
     Room.can_invite := false;
     Room.can_send_messages := false;
     Room.can_set_name := false;
     Room.can_set_topic := false;
     Room.can_set_avatar := false;
     Room.can_set_encryption := false;
     Room.can_set_join_rules := false;
     Room.can_set_guest_access := false;
     Room.last_event_date := last_event_date |}.

Definition invited_member (id : string) (power_level : Z) : Member.t :=
  {| Member.id := of_ascii id;
     Member.display_name := [];
     Member.avatar_url := [];
     Member.typing := false;
     Member.power_level := power_level;
     Member.invited := true;
     Member.profile_updated := ZeroDate |}.

Definition upload (id : UUID) (start_date : datetime) : Upload.t :=
  {| Upload.id := id;
     Upload.task := 10%N;
     Upload.monitor := 11%N;
     Upload.filepath := of_ascii "/tmp/file";
     Upload.total_size := 0;
     Upload.uploaded := 0;
     Upload.speed := PrimFloat.zero;
     Upload.time_left := 0;
     Upload.status := Uploading;
     Upload.error := NoneType;
     Upload.error_args := [];
     Upload.start_date := start_date |}.

Definition event (id : string) (date : datetime) : Event.t :=
  {| Event.id := of_ascii id;
     Event.event_id := of_ascii id;
     Event.source := None;
     Event.date := date;
     Event.sender_id := of_ascii "@alice:example.org";
     Event.sender_name := of_ascii "Alice";
     Event.sender_avatar := [];
     Event.content := [];
     Event.inline_content := [];
     Event.reason := [];
     Event.type_specifier := Unset;
     Event.target_id := [];
     Event.target_name := [];
     Event.target_avatar := [];
     Event.is_local_echo := false;
     Event.local_event_type := None;
     Event.media_url := [];
     Event.media_title := [];
     Event.media_width := 0;
     Event.media_height := 0;
     Event.media_duration := 0;
     Event.media_size := 0;
     Event.media_mime := [];
     Event.media_crypt_dict := ∅;
     Event.thumbnail_url := [];
     Event.thumbnail_width := 0;
     Event.thumbnail_height := 0;
     Event.thumbnail_crypt_dict := ∅ |}.

(** Two invitations, from different users; the first has the more recent
    event. *)
Definition invite_recent : Room.t := room "!a:example.org" "@alice:example.org" false 20.
Definition invite_old : Room.t := room "!b:example.org" "@bob:example.org" false 10.

(** A moderator who is still only invited, and a plain joined member. *)
Definition invited_admin : Member.t := invited_member "@admin:example.org" 100.
Definition joined_user : Member.t := member "@user:example.org" 0.

(** Two events of the same instant. *)
Definition event_1 : Event.t := event "$one" 1000.
Definition event_2 : Event.t := event "$two" 1000.

(** The keyword arguments of a complete [Event(...)] call, and the same
    call without [date]. *)
Definition event_kwargs : attrs :=
  <["id" := VStr (of_ascii "$one")]>
  (<["event_id" := VStr (of_ascii "$one")]>
  (<["source" := VNone]>
  (<["date" := VDate 1000]>
  (<["sender_id" := VStr (of_ascii "@alice:example.org")]>
  (<["sender_name" := VStr (of_ascii "Alice")]>
  (<["sender_avatar" := empty_str]> ∅)))))).

Definition event_kwargs_no_date : attrs := delete "date" event_kwargs.

(** An [HTML_PROCESSOR] that leaves its input alone, for evaluating the
    examples. *)
Definition plain_filter : HtmlFilter := fun v => v.


(** A serialization that lists the fields [Event.serialized] deletes next
    to two it keeps. *)
Definition sample_serialized (e : Event.t) : attrs :=
  <["id" := VStr (Event.id e)]>
  (<["date" := VDate (Event.date e)]>
  (<["source" := VNone]>
  (<["local_event_type" := VNone]> ∅))).

(** ** The claims as worded, where the code is compared with them *)

(** Every [__lt__] orders any two records with distinct [id]s. *)
Definition every_lt_decides_distinct_ids `{Lower} : Prop :=
  decides_distinct_ids Account.id Account.lt /\
  decides_distinct_ids Room.id Room.lt /\
  decides_distinct_ids Member.id Member.lt /\
  decides_distinct_ids Upload.id Upload.lt /\
  decides_distinct_ids Event.id Event.lt.

(** [Member.__lt__] is the documented order on power level and name. *)
Definition Member_lt_is_documented `{Lower} : Prop :=
  forall m1 m2, Member.lt m1 m2 = MemberDoc.lt m1 m2.

(** [Room.__lt__] is the documented order on state, date and name. *)
Definition Room_lt_is_documented `{Lower} : Prop :=
  forall r1 r2, Room.lt r1 r2 = RoomDoc.lt r1 r2.


(** ** More of [Event]: [links] *)

(** [str.isspace()] for one character: the Unicode whitespace code
    points. *)
Definition py_isspace (c : N) : bool :=
  (((9 <=? c) && (c <=? 13)) || ((28 <=? c) && (c <=? 32))
   || (c =? 133) || (c =? 160) || (c =? 5760)
   || ((8192 <=? c) && (c <=? 8202))
   || (c =? 8232) || (c =? 8233) || (c =? 8239) || (c =? 8287)
   || (c =? 12288))%N.

Fixpoint lstrip (s : str) : str :=
  match s with
  | [] => []
  | c :: s' => if py_isspace c then lstrip s' else s
  end.

Definition rstrip (s : str) : str := rev (lstrip (rev s)).

(** [s.strip()]: whitespace is removed at both ends. *)
Definition strip (s : str) : str := rstrip (lstrip s).

(** [bool(s)] for a string. *)
Definition str_bool (s : str) : bool :=
  match s with
  | [] => false
  | _ :: _ => true
  end.

Section Links.
(** [lxml.html.iterlinks(html)]: the [(element, attribute, link, pos)]
    tuples of a document, an external collaborator. *)
Variable iterlinks : str -> list (pyobj * option str * str * Z).

(** [Event.links]: the document's links when [content] is not blank,
    then [media_url] when there is one. *)
Definition Event_links (self : Event.t) : list str :=
  let urls : list str := [] in
  let urls :=
    if str_bool (strip (Event.content self))
    then urls ++ map (fun link => link.1.2) (iterlinks (Event.content self))
    else urls in
  let urls :=
    if str_bool (Event.media_url self)
    then urls ++ [Event.media_url self]
    else urls in
  urls.
End Links.

(** ** The sort keys, with their directions

    A key wrapped in [Desc] is compared the other way round: it is the
    key [__lt__] takes from [other] on the left of [<] and from [self]
    on the right. *)
Record desc (A : Type) := Desc { asc : A }.
Arguments Desc {A} _.
Arguments asc {A} _.

#[global] Instance desc_PyOrd {A} `{PyOrd A} : PyOrd (desc A) := {|
  py_eqb := fun x y => py_eqb (asc y) (asc x);
  py_ltb := fun x y => py_ltb (asc y) (asc x)
|}.

Definition Room_sort_key `{Lower} (r : Room.t)
    : bool * desc str * desc datetime * str :=
  (Room.left r, Desc (Room.inviter_id r), Desc (Room.last_event_date r),
   lower (Room.name r)).

Definition Member_sort_key `{Lower} (m : Member.t) : bool * desc Z * str :=
  (Member.invited m, Desc (Member.power_level m), lower (Member.name m)).

(** [<] is transitive. *)
Class PyOrdTrans (A : Type) `{PyOrd A} :=
  py_ltb_trans : forall x y z : A,
    py_ltb x y = true -> py_ltb y z = true -> py_ltb x z = true.

(** ** What a construction stores in one field *)

(** The passed value when the field is a constructor parameter that was
    passed, else the field's default. *)
Definition field_value (now : datetime) (kwargs : attrs) (f : field_decl)
    : option value :=
  match (if finit f then kwargs !! fname f else None) with
  | Some v => Some v
  | None => default_value now (fdefault f)
  end.

(** The dataclasses of [src/backend/models/items.py]. *)
Definition dataclasses `{HtmlFilter} : list class :=
  [Account_class; Room_class; Member_class; Upload_class; Event_class;
   Device_class].


(** An event with a link in its text and a media attachment, and a
    parser that finds the link. *)
Definition media_event : Event.t :=
  {| Event.id := of_ascii "$media";
     Event.event_id := of_ascii "$media";
     Event.source := None;
     Event.date := 1000;
     Event.sender_id := of_ascii "@alice:example.org";
     Event.sender_name := of_ascii "Alice";
     Event.sender_avatar := [];
     Event.content := of_ascii "<a href=x>x</a>";
     Event.inline_content := [];
     Event.reason := [];
     Event.type_specifier := Unset;
     Event.target_id := [];
     Event.target_name := [];
     Event.target_avatar := [];
     Event.is_local_echo := false;
     Event.local_event_type := None;
     Event.media_url := of_ascii "mxc://example.org/abc";
     Event.media_title := [];
     Event.media_width := 0;
     Event.media_height := 0;
     Event.media_duration := 0;
     Event.media_size := 0;
     Event.media_mime := [];
     Event.media_crypt_dict := ∅;
     Event.thumbnail_url := [];
     Event.thumbnail_width := 0;
     Event.thumbnail_height := 0;
     Event.thumbnail_crypt_dict := ∅ |}.

Definition sample_iterlinks (html : str) : list (pyobj * option str * str * Z) :=
  [(20%N, Some (of_ascii "href"), of_ascii "x", 0)].

(** The keyword arguments of a complete [Upload(...)] call. *)
Definition upload_kwargs : attrs :=
  <["id" := VInt 1]>
  (<["task" := VObj 10%N]>
  (<["monitor" := VObj 11%N]>
  (<["filepath" := VStr (of_ascii "/tmp/file")]> ∅))).

(** Three rooms: an invitation, a joined room and a left one. *)
Definition room_invited : Room.t := room "!i:example.org" "@alice:example.org" false 1.
Definition room_joined : Room.t := room "!j:example.org" "" false 3.
Definition room_left : Room.t := room "!l:example.org" "" true 2.

(** The attributes of an event that was given [content] only, before
    [__post_init__] runs. *)
Definition content_only : attrs :=
  <["content" := VStr (of_ascii "<b>hi</b>")]>
    (<["inline_content" := empty_str]> ∅).

(** * Properties *)

(** ** The comparison protocol is lawful on the key types *)

#[global] Instance bool_PyOrdLaws : PyOrdLaws bool.
Proof.
  split.
  - intros x y. apply Bool.eqb_true_iff.
  - intros []; reflexivity.
  - intros [] []; cbn; congruence.
  - intros [] []; cbn; congruence.
Qed.

#[global] Instance Z_PyOrdLaws : PyOrdLaws Z.
Proof.
  split; cbn.
  - apply Z.eqb_eq.
  - apply Z.ltb_irrefl.
  - intros x y Hlt. apply Z.ltb_lt in Hlt. apply Z.ltb_ge. lia.
  - intros x y Hxy Hyx. apply Z.ltb_ge in Hxy, Hyx. lia.
Qed.

#[global] Instance N_PyOrdLaws : PyOrdLaws N.
Proof.
  split; cbn.
  - apply N.eqb_eq.
  - apply N.ltb_irrefl.
  - intros x y Hlt. apply N.ltb_lt in Hlt. apply N.ltb_ge. lia.
  - intros x y Hxy Hyx. apply N.ltb_ge in Hxy, Hyx. lia.
Qed.

Lemma py_eqb_refl {A} `{PyOrdLaws A} (x : A) : py_eqb x x = true.
Proof. now apply (proj2 (py_eqb_eq x x)). Qed.

Lemma py_eqb_neq {A} `{PyOrdLaws A} (x y : A) : py_eqb x y = false <-> x <> y.
Proof.
  split.
  - intros E Heq. apply (proj2 (py_eqb_eq x y)) in Heq. congruence.
  - intros Hne. destruct (py_eqb x y) eqn:E; [|reflexivity].
    apply (proj1 (py_eqb_eq x y)) in E. contradiction.
Qed.

Lemma py_eqb_reflect {A} `{PyOrdLaws A} (x y : A) : reflect (x = y) (py_eqb x y).
Proof.
  destruct (py_eqb x y) eqn:E; constructor.
  - now apply (proj1 (py_eqb_eq x y)).
  - now apply (proj1 (py_eqb_neq x y)).
Qed.

Lemma py_eqb_sym {A} `{PyOrdLaws A} (x y : A) : py_eqb x y = py_eqb y x.
Proof.
  destruct (py_eqb_reflect x y) as [->|Hne].
  - now rewrite py_eqb_refl.
  - symmetry. apply (proj2 (py_eqb_neq y x)). congruence.
Qed.

Section SeqLaws.
Context {A : Type} `{PyOrdLaws A}.

Lemma seq_eqb_eq (x y : list A) : seq_eqb x y = true <-> x = y.
Proof.
  revert y. induction x as [|a x IH]; intros [|b y]; cbn;
    try (split; congruence).
  rewrite andb_true_iff, py_eqb_eq, IH. split.
  - intros [-> ->]. reflexivity.
  - intros [= -> ->]. split; reflexivity.
Qed.

Lemma seq_ltb_irrefl (x : list A) : seq_ltb x x = false.
Proof.
  induction x as [|a x IH]; cbn; [reflexivity|].
  now rewrite py_eqb_refl.
Qed.

Lemma seq_ltb_asym (x y : list A) :
  seq_ltb x y = true -> seq_ltb y x = false.
Proof.
  revert y. induction x as [|a x IH]; intros [|b y]; cbn;
    try congruence.
  rewrite (py_eqb_sym b a).
  destruct (py_eqb a b); [apply IH | apply py_ltb_asym].
Qed.

Lemma seq_ltb_connex (x y : list A) :
  seq_ltb x y = false -> seq_ltb y x = false -> x = y.
Proof.
  revert y. induction x as [|a x IH]; intros [|b y]; cbn;
    try congruence.
  rewrite (py_eqb_sym b a).
  destruct (py_eqb_reflect a b) as [->|Hne].
  - intros Hxy Hyx. f_equal. now apply IH.
  - intros Hab Hba. destruct Hne. now apply py_ltb_connex.
Qed.

#[global] Instance seq_PyOrdLaws : PyOrdLaws (list A).
Proof.
  split.
  - apply seq_eqb_eq.
  - apply seq_ltb_irrefl.
  - apply seq_ltb_asym.
  - apply seq_ltb_connex.
Qed.
End SeqLaws.

Section TupleLaws.
Context {A B : Type} `{PyOrdLaws A} `{PyOrdLaws B}.

#[global] Instance tuple_PyOrdLaws : PyOrdLaws (A * B).
Proof.
  split.
  - intros [a b] [a' b']. cbn.
    rewrite andb_true_iff, !py_eqb_eq. split.
    + intros [-> ->]. reflexivity.
    + intros [= -> ->]. split; reflexivity.
  - intros [a b]. cbn. rewrite py_eqb_refl. apply py_ltb_irrefl.
  - intros [a b] [a' b']. cbn. rewrite (py_eqb_sym a' a).
    destruct (py_eqb a a'); apply py_ltb_asym.
  - intros [a b] [a' b']. cbn. rewrite (py_eqb_sym a' a).
    destruct (py_eqb_reflect a a') as [->|Hne].
    + intros Hb Hb'. f_equal. now apply py_ltb_connex.
    + intros Ha Ha'. destruct Hne. now apply py_ltb_connex.
Qed.
End TupleLaws.

(** A tie is an equality of keys. *)
Lemma py_ltb_tie {A} `{PyOrdLaws A} (x y : A) :
  (py_ltb x y = false /\ py_ltb y x = false) <-> x = y.
Proof.
  split.
  - intros [Hxy Hyx]. now apply py_ltb_connex.
  - intros ->. split; apply py_ltb_irrefl.
Qed.

(** ** Events sort newest first *)

(** C4: an event sorts before another exactly when its date is strictly
    greater, so events sort newest first. *)
Theorem Event_lt_newest_first (e1 e2 : Event.t) :
  Event.lt e1 e2 = true <-> (Event.date e1 > Event.date e2)%Z.
Proof.
  unfold Event.lt, py_gtb. cbn. rewrite Z.ltb_lt. lia.
Qed.

(** ** No record sorts before itself *)

(** C10: for every record type that defines [__lt__], [x < x] is false. *)
Theorem lt_irreflexive `{Lower} :
  (forall a : Account.t, Account.lt a a = false) /\
  (forall r : Room.t, Room.lt r r = false) /\
  (forall m : Member.t, Member.lt m m = false) /\
  (forall u : Upload.t, Upload.lt u u = false) /\
  (forall e : Event.t, Event.lt e e = false).
Proof.
  repeat split; intros x.
  - unfold Account.lt. apply py_ltb_irrefl.
  - unfold Room.lt. apply py_ltb_irrefl.
  - unfold Member.lt. apply py_ltb_irrefl.
  - unfold Upload.lt, py_gtb. apply py_ltb_irrefl.
  - unfold Event.lt, py_gtb. apply py_ltb_irrefl.
Qed.

(** ** Ties: what the comparisons leave undecided *)

Section Ties.
Context `{Lower}.

Lemma Account_lt_asym (a b : Account.t) :
  Account.lt a b = true -> Account.lt b a = false.
Proof. unfold Account.lt. apply py_ltb_asym. Qed.

Lemma Account_tied_iff (a b : Account.t) :
  tied Account.lt a b <-> Account_key a = Account_key b.
Proof. unfold tied, Account.lt, Account_key. apply py_ltb_tie. Qed.

Lemma Room_lt_asym (a b : Room.t) :
  Room.lt a b = true -> Room.lt b a = false.
Proof.
  unfold Room.lt. apply py_ltb_asym.
Qed.

Lemma Room_tied_iff (a b : Room.t) :
  tied Room.lt a b <-> Room_key a = Room_key b.
Proof.
  unfold tied, Room.lt, Room_key. rewrite py_ltb_tie.
  split; intros [= Hl Hi Hd Hn]; congruence.
Qed.

Lemma Member_lt_asym (a b : Member.t) :
  Member.lt a b = true -> Member.lt b a = false.
Proof.
  unfold Member.lt. apply py_ltb_asym.
Qed.

Lemma Member_tied_iff (a b : Member.t) :
  tied Member.lt a b <-> Member_key a = Member_key b.
Proof.
  unfold tied, Member.lt, Member_key. rewrite py_ltb_tie.
  split; intros [= Hi Hp Hn]; congruence.
Qed.

Lemma Upload_lt_asym (a b : Upload.t) :
  Upload.lt a b = true -> Upload.lt b a = false.
Proof. unfold Upload.lt, py_gtb. apply py_ltb_asym. Qed.

Lemma Upload_tied_iff (a b : Upload.t) :
  tied Upload.lt a b <-> Upload_key a = Upload_key b.
Proof.
  unfold tied, Upload.lt, Upload_key, py_gtb.
  rewrite (and_comm (_ = false)). rewrite py_ltb_tie. reflexivity.
Qed.

Lemma Event_lt_asym (a b : Event.t) :
  Event.lt a b = true -> Event.lt b a = false.
Proof. unfold Event.lt, py_gtb. apply py_ltb_asym. Qed.

Lemma Event_tied_iff (a b : Event.t) :
  tied Event.lt a b <-> Event_key a = Event_key b.
Proof.
  unfold tied, Event.lt, Event_key, py_gtb.
  rewrite (and_comm (_ = false)). rewrite py_ltb_tie. reflexivity.
Qed.
End Ties.

(** C5, as the code has it: every [__lt__] is asymmetric, so of [r1 < r2]
    and [r2 < r1] at most one holds, and neither holds exactly when the
    two records have the same sort keys (the lower-cased name of an
    Account; [left], [inviter_id], [last_event_date] and lower-cased name
    of a Room; [invited], [power_level] and lower-cased name of a Member;
    the [start_date] of an Upload; the [date] of an Event).  The identity
    key breaks no tie. *)
Theorem lt_asymmetric_ties_on_keys `{Lower} :
  (forall a b : Account.t,
      (Account.lt a b = true -> Account.lt b a = false) /\
      (tied Account.lt a b <-> Account_key a = Account_key b)) /\
  (forall a b : Room.t,
      (Room.lt a b = true -> Room.lt b a = false) /\
      (tied Room.lt a b <-> Room_key a = Room_key b)) /\
  (forall a b : Member.t,
      (Member.lt a b = true -> Member.lt b a = false) /\
      (tied Member.lt a b <-> Member_key a = Member_key b)) /\
  (forall a b : Upload.t,
      (Upload.lt a b = true -> Upload.lt b a = false) /\
      (tied Upload.lt a b <-> Upload_key a = Upload_key b)) /\
  (forall a b : Event.t,
      (Event.lt a b = true -> Event.lt b a = false) /\
      (tied Event.lt a b <-> Event_key a = Event_key b)).
Proof.
  split; [|split; [|split; [|split]]]; intros a b.
  - exact (conj (Account_lt_asym a b) (Account_tied_iff a b)).
  - exact (conj (Room_lt_asym a b) (Room_tied_iff a b)).
  - exact (conj (Member_lt_asym a b) (Member_tied_iff a b)).
  - exact (conj (Upload_lt_asym a b) (Upload_tied_iff a b)).
  - exact (conj (Event_lt_asym a b) (Event_tied_iff a b)).
Qed.

(** Two events of one instant with different ids tie, by the theorem. *)
Lemma lt_asymmetric_ties_on_keys_witness :
  Event.id event_1 <> Event.id event_2 /\ tied Event.lt event_1 event_2.
Proof.
  split; [discriminate|].
  pose proof (@lt_asymmetric_ties_on_keys ascii_lower) as (_ & _ & _ & _ & HE).
  apply (proj2 (HE event_1 event_2)). reflexivity.
Defined.

(** C5 fails as worded: two events with distinct ids and the same date
    are ordered neither way. *)
Lemma Event_lt_ties_distinct_ids :
  (Event.id event_1 <> Event.id event_2 /\
   Event.lt event_1 event_2 = false /\
   Event.lt event_2 event_1 = false) /\
  ~ @every_lt_decides_distinct_ids ascii_lower.
Proof.
  assert (Hne : Event.id event_1 <> Event.id event_2) by discriminate.
  split; [split; [exact Hne | split; reflexivity]|].
  intros (_ & _ & _ & _ & HE).
  specialize (HE event_1 event_2 Hne). discriminate HE.
Qed.

(** ** Members: invitation, power level, name *)

Lemma tuple_ltb_unfold {A B} `{PyOrd A} `{PyOrd B} (a a' : A) (b b' : B) :
  py_ltb (a, b) (a', b') = if py_eqb a a' then py_ltb b b' else py_ltb a a'.
Proof. reflexivity. Qed.

Lemma tuple_eqb_unfold {A B} `{PyOrd A} `{PyOrd B} (a a' : A) (b b' : B) :
  py_eqb (a, b) (a', b') = py_eqb a a' && py_eqb b b'.
Proof. reflexivity. Qed.

Section MemberOrder.
Context `{Lower}.

(** With the [invited] flags equal the first key is skipped. *)
Lemma Member_lt_same_invited (m1 m2 : Member.t) :
  Member.invited m1 = Member.invited m2 ->
  Member.lt m1 m2 = MemberDoc.lt m1 m2.
Proof.
  intros Hi. unfold Member.lt, MemberDoc.lt.
  rewrite !tuple_ltb_unfold, !tuple_eqb_unfold, Hi, py_eqb_refl.
  reflexivity.
Qed.

(** With the names equal too, the power level decides. *)
Lemma Member_lt_by_power (m1 m2 : Member.t) :
  Member.invited m1 = Member.invited m2 ->
  lower (Member.name m1) = lower (Member.name m2) ->
  Member.lt m1 m2 = (Member.power_level m2 <? Member.power_level m1).
Proof.
  intros Hi Hn. rewrite Member_lt_same_invited by exact Hi.
  unfold MemberDoc.lt. rewrite tuple_ltb_unfold, Hn, py_ltb_irrefl.
  destruct (py_eqb_reflect (Member.power_level m2) (Member.power_level m1))
    as [->|Hne]; [|reflexivity].
  symmetry. apply Z.ltb_irrefl.
Qed.

Lemma Member_lt_spec (m1 m2 : Member.t) :
  Member.lt m1 m2 = true <->
  (Member.invited m1 = false /\ Member.invited m2 = true) \/
  (Member.invited m1 = Member.invited m2 /\
   ((Member.power_level m1 > Member.power_level m2)%Z \/
    (Member.power_level m1 = Member.power_level m2 /\
     (lower (Member.name m1) <?> lower (Member.name m2)) = true))).
Proof.
  unfold Member.lt. rewrite !tuple_ltb_unfold, !tuple_eqb_unfold.
  destruct (py_eqb_reflect (Member.invited m1) (Member.invited m2))
    as [Hi|Hi]; cbn [andb].
  - destruct (py_eqb_reflect (Member.power_level m2) (Member.power_level m1))
      as [Hp|Hp].
    + split.
      * intros Hlt. right. split; [exact Hi|]. right. split; [congruence|exact Hlt].
      * intros [[Hf Ht]|[_ [Hgt|[_ Hlt]]]]; [congruence|lia|exact Hlt].
    + change (py_ltb (Member.power_level m2) (Member.power_level m1))
        with (Member.power_level m2 <? Member.power_level m1).
      rewrite Z.ltb_lt. split.
      * intros Hlt. right. split; [exact Hi|]. left. lia.
      * intros [[Hf Ht]|[_ [Hgt|[Heq _]]]]; [congruence|lia|congruence].
  - change (py_ltb (Member.invited m1) (Member.invited m2))
      with (negb (Member.invited m1) && Member.invited m2).
    destruct (Member.invited m1), (Member.invited m2); cbn; split;
      try congruence; tauto.
Qed.

Lemma Member_lt_keys (m1 m2 m1' m2' : Member.t) :
  Member_key m1 = Member_key m1' ->
  Member_key m2 = Member_key m2' ->
  Member.lt m1 m2 = Member.lt m1' m2'.
Proof.
  unfold Member_key, Member.lt. intros [= -> -> ->] [= -> -> ->].
  reflexivity.
Qed.
End MemberOrder.

(** What [Member.__lt__] computes: the [invited] flag decides first
    (members who joined before those only invited), then the power
    level, higher first, then the lower-cased display name, falling back
    to the user id without its first character; no other field takes
    part, and between two members with the same [invited] flag the order
    is the documented one on power level and name. *)
Theorem Member_lt_invited_power_name `{Lower} (m1 m2 : Member.t) :
  (Member.lt m1 m2 = true <->
   (Member.invited m1 = false /\ Member.invited m2 = true) \/
   (Member.invited m1 = Member.invited m2 /\
    ((Member.power_level m1 > Member.power_level m2)%Z \/
     (Member.power_level m1 = Member.power_level m2 /\
      (lower (Member.name m1) <?> lower (Member.name m2)) = true)))) /\
  (forall m1' m2',
      Member_key m1 = Member_key m1' ->
      Member_key m2 = Member_key m2' ->
      Member.lt m1 m2 = Member.lt m1' m2') /\
  (Member.invited m1 = Member.invited m2 ->
   Member.lt m1 m2 = MemberDoc.lt m1 m2).
Proof.
  split; [apply Member_lt_spec|]. split.
  - intros m1' m2'. apply Member_lt_keys.
  - apply Member_lt_same_invited.
Qed.

(** C3 at a member who is only invited, with power level 100, and a
    joined member with power level 0: the order of the docstring ("Sort
    by power level, then by display name/user ID") puts the first before
    the second; [Member.__lt__] compares [invited] before the power
    levels and puts the joined member first, so a field other than power
    level and name decides. *)
Lemma Member_lt_invited_sorts_last :
  (@Member.lt ascii_lower invited_admin joined_user = false /\
   @Member.lt ascii_lower joined_user invited_admin = true /\
   @MemberDoc.lt ascii_lower invited_admin joined_user = true) /\
  ~ @Member_lt_is_documented ascii_lower.
Proof.
  split; [repeat split; reflexivity|].
  intros Hdoc. specialize (Hdoc invited_admin joined_user). discriminate Hdoc.
Qed.

(** ** Records without a display name sort by the id after its sigil *)

Lemma Account_name_fallback (a : Account.t) :
  Account.display_name a = [] ->
  Account.name a = slice_from_1 (Account.id a).
Proof. unfold Account.name. intros ->. reflexivity. Qed.

Lemma Member_name_fallback (m : Member.t) :
  Member.display_name m = [] ->
  Member.name m = slice_from_1 (Member.id m).
Proof. unfold Member.name. intros ->. reflexivity. Qed.

(** The first character of a non-empty id is not part of the slice. *)
Lemma slice_from_1_cons (c : N) (s : str) : slice_from_1 (c :: s) = s.
Proof. reflexivity. Qed.

(** C9: an Account or Member with an empty [display_name] sorts by its
    [id] without the first character, whatever that character is,
    lower-cased: [__lt__] is the lexicographic comparison of the
    lower-cased [id[1:]] with the other record's lower-cased name (for a
    Member after [invited] and the power level).  Two such records
    whose ids agree after the first character, up to case, have the same
    name key: they compare alike with every other record, tie with each
    other as Accounts, and tie as Members when [invited] and
    [power_level] agree too. *)
Theorem empty_display_name_sorts_by_id_tail `{Lower} :
  (forall a x : Account.t,
      Account.display_name a = [] ->
      Account.lt a x
      = seq_ltb (lower (slice_from_1 (Account.id a))) (lower (Account.name x)) /\
      Account.lt x a
      = seq_ltb (lower (Account.name x)) (lower (slice_from_1 (Account.id a)))) /\
  (forall a b : Account.t,
      Account.display_name a = [] ->
      Account.display_name b = [] ->
      Account.lt a b
      = seq_ltb (lower (slice_from_1 (Account.id a)))
                (lower (slice_from_1 (Account.id b)))) /\
  (forall m x : Member.t,
      Member.display_name m = [] ->
      Member.lt m x
      = ((Member.invited m, Member.power_level x,
          lower (slice_from_1 (Member.id m)))
         <?>
         (Member.invited x, Member.power_level m, lower (Member.name x))) /\
      Member.lt x m
      = ((Member.invited x, Member.power_level m, lower (Member.name x))
         <?>
         (Member.invited m, Member.power_level x,
          lower (slice_from_1 (Member.id m))))) /\
  (forall m m' : Member.t,
      Member.display_name m = [] ->
      Member.display_name m' = [] ->
      Member.invited m = Member.invited m' ->
      Member.power_level m = Member.power_level m' ->
      Member.lt m m'
      = seq_ltb (lower (slice_from_1 (Member.id m)))
                (lower (slice_from_1 (Member.id m')))) /\
  (forall (c c' : N) (s : str),
      slice_from_1 (c :: s) = s /\ slice_from_1 (c' :: s) = s) /\
  (forall a : Account.t,
      Account.display_name a = [] ->
      Account_key a = lower (slice_from_1 (Account.id a))) /\
  (forall m : Member.t,
      Member.display_name m = [] ->
      Member_key m =
        (Member.invited m, Member.power_level m,
         lower (slice_from_1 (Member.id m)))) /\
  (forall a a' x : Account.t,
      Account.display_name a = [] ->
      Account.display_name a' = [] ->
      lower (slice_from_1 (Account.id a)) = lower (slice_from_1 (Account.id a')) ->
      Account_key a = Account_key a' /\
      Account.lt a x = Account.lt a' x /\
      Account.lt x a = Account.lt x a' /\
      tied Account.lt a a') /\
  (forall m m' x : Member.t,
      Member.display_name m = [] ->
      Member.display_name m' = [] ->
      lower (slice_from_1 (Member.id m)) = lower (slice_from_1 (Member.id m')) ->
      lower (Member.name m) = lower (Member.name m') /\
      (Member.invited m = Member.invited m' ->
       Member.power_level m = Member.power_level m' ->
       Member.lt m x = Member.lt m' x /\
       Member.lt x m = Member.lt x m' /\
       tied Member.lt m m')).
Proof.
  split; [|split; [|split; [|split; [|split; [|split; [|split; [|split]]]]]]].
  - intros a x Ha. unfold Account.lt. rewrite (Account_name_fallback a Ha).
    split; reflexivity.
  - intros a b Ha Hb. unfold Account.lt.
    rewrite (Account_name_fallback a Ha), (Account_name_fallback b Hb).
    reflexivity.
  - intros m x Hm. unfold Member.lt. rewrite (Member_name_fallback m Hm).
    split; reflexivity.
  - intros m m' Hm Hm' Hi Hp.
    rewrite Member_lt_same_invited by exact Hi. unfold MemberDoc.lt.
    rewrite tuple_ltb_unfold, Hp, py_eqb_refl.
    rewrite (Member_name_fallback m Hm), (Member_name_fallback m' Hm').
    reflexivity.
  - intros c c' s. split; apply slice_from_1_cons.
  - intros a Ha. unfold Account_key. now rewrite Account_name_fallback.
  - intros m Hm. unfold Member_key. now rewrite Member_name_fallback.
  - intros a a' x Ha Ha' Htail.
    assert (Hk : Account_key a = Account_key a').
    { unfold Account_key. now rewrite !Account_name_fallback. }
    split; [exact Hk|]. unfold Account_key in Hk.
    split; [|split].
    + unfold Account.lt. now rewrite Hk.
    + unfold Account.lt. now rewrite Hk.
    + apply Account_tied_iff. exact Hk.
  - intros m m' x Hm Hm' Htail.
    assert (Hn : lower (Member.name m) = lower (Member.name m')).
    { now rewrite !Member_name_fallback. }
    split; [exact Hn|]. intros Hi Hp.
    assert (Hk : Member_key m = Member_key m').
    { unfold Member_key. now rewrite Hi, Hp, Hn. }
    split; [|split].
    + now apply Member_lt_keys.
    + now apply Member_lt_keys.
    + apply Member_tied_iff. exact Hk.
Qed.

(** Two accounts without a display name, [@alice:example.org] and
    [!Alice:example.org], tie; [@alice:example.org] sorts before
    [!Bob:example.org], although [!] is below [@] and [B] below [a]. *)
Lemma empty_display_name_sorts_by_id_tail_witness :
  Account.display_name (account "@alice:example.org" "") = [] /\
  Account.display_name (account "!Alice:example.org" "") = [] /\
  Account.display_name (account "!Bob:example.org" "") = [] /\
  Account.id (account "@alice:example.org" "") <>
    Account.id (account "!Alice:example.org" "") /\
  tied (@Account.lt ascii_lower)
    (account "@alice:example.org" "") (account "!Alice:example.org" "") /\
  @Account.lt ascii_lower
    (account "@alice:example.org" "") (account "!Bob:example.org" "") = true /\
  @Account.lt ascii_lower
    (account "!Bob:example.org" "") (account "@alice:example.org" "") = false.
Proof.
  split; [reflexivity|]. split; [reflexivity|]. split; [reflexivity|].
  split; [discriminate|].
  pose proof (@empty_display_name_sorts_by_id_tail ascii_lower)
    as (_ & HB & _ & _ & _ & _ & _ & HA & _).
  split; [|split].
  - apply (HA (account "@alice:example.org" "")
              (account "!Alice:example.org" "")
              (account "@alice:example.org" "")); reflexivity.
  - rewrite HB by reflexivity. reflexivity.
  - rewrite HB by reflexivity. reflexivity.
Defined.

(** ** Rooms: the code against its docstring *)

Section RoomOrder.
Context `{Lower}.

(** The empty string is below every other one. *)
Lemma str_ltb_nil_l (s : str) : ([] <?> s) = match s with [] => false | _ => true end.
Proof. destruct s; reflexivity. Qed.

Lemma str_ltb_nil_r (s : str) : (s <?> []) = false.
Proof. destruct s; reflexivity. Qed.

(** Where [Room.__lt__] is the documented order: whenever the two rooms
    do not both carry an inviter, or carry the same one, and a left
    room is not compared with a left room of another inviter. *)
Lemma Room_lt_documented_when (r1 r2 : Room.t) :
  Room.left r1 <> Room.left r2 \/
  Room.inviter_id r1 = Room.inviter_id r2 \/
  (Room.left r1 = false /\ Room.left r2 = false /\
   (Room.inviter_id r1 = [] \/ Room.inviter_id r2 = [])) ->
  Room.lt r1 r2 = RoomDoc.lt r1 r2.
Proof.
  unfold Room.lt, RoomDoc.lt, RoomDoc.state_of.
  rewrite !tuple_ltb_unfold, !tuple_eqb_unfold.
  destruct (Room.left r1) eqn:L1, (Room.left r2) eqn:L2; cbn [andb py_eqb py_ltb bool_PyOrd Bool.eqb negb].
  - (* both left *)
    intros [Hne|[Hi|(Hf & _)]]; [congruence| |discriminate Hf].
    rewrite Hi, py_eqb_refl, py_ltb_irrefl. cbn. reflexivity.
  - intros _. destruct (Room.inviter_id r2); reflexivity.
  - intros _. destruct (Room.inviter_id r1); reflexivity.
  - intros [Hne|[Hi|(_ & _ & [Hi|Hi])]]; [congruence| | |].
    + rewrite Hi, py_eqb_refl, py_ltb_irrefl.
      destruct (Room.inviter_id r2); reflexivity.
    + rewrite Hi.
      destruct (Room.inviter_id r2) as [|c s]; [reflexivity|].
      reflexivity.
    + rewrite Hi.
      destruct (Room.inviter_id r1) as [|c s]; [reflexivity|].
      reflexivity.
Qed.
End RoomOrder.

(** C1 at two invitations from different users: both rooms are in the
    invited state and [invite_recent] has the later event, so the
    documented order puts it first; [Room.__lt__] compares the inviter
    ids before the dates and puts [invite_old] first. *)
Theorem Room_lt_invitations_by_inviter :
  RoomDoc.state_of invite_recent = RoomDoc.Invited /\
  RoomDoc.state_of invite_old = RoomDoc.Invited /\
  (Room.last_event_date invite_recent > Room.last_event_date invite_old)%Z /\
  @RoomDoc.lt ascii_lower invite_recent invite_old = true /\
  @Room.lt ascii_lower invite_recent invite_old = false /\
  @Room.lt ascii_lower invite_old invite_recent = true.
Proof.
  repeat split; reflexivity.
Qed.

(** ** Sorting members: the [upsert] scenario *)

Section SortedUnique.
Context {A : Type} (lt : A -> A -> bool).

(** A list in which every element sorts strictly before all later ones
    is the only ordered arrangement of its elements. *)
Lemma in_order_unique (l0 l : list A) :
  strictly_in_order lt l0 -> l ≡ₚ l0 -> in_order lt l -> l = l0.
Proof.
  unfold strictly_in_order, in_order.
  intros Hs. revert l.
  induction Hs as [|x0 t0 Hs IH Hx0]; intros l Hp Ho.
  - apply Permutation_nil. now symmetry.
  - destruct Ho as [|h t Ho Hh].
    + apply Permutation_nil in Hp. discriminate Hp.
    + assert (Hhx : h = x0).
      { assert (Hin : In h (x0 :: t0)).
        { eapply Permutation_in; [exact Hp|]. now left. }
        destruct Hin as [<-|Hin]; [reflexivity|].
        assert (Hin0 : In x0 (h :: t)).
        { eapply Permutation_in; [symmetry; exact Hp|]. now left. }
        destruct Hin0 as [->|Hin0]; [reflexivity|].
        rewrite Forall_forall in Hx0, Hh.
        apply list_elem_of_In in Hin, Hin0.
        specialize (Hx0 h Hin). specialize (Hh x0 Hin0). congruence. }
      subst h. f_equal. apply IH; [|exact Ho].
      now apply Permutation_cons_inv in Hp.
Qed.

Lemma insert_at_perm (i : nat) (x : A) (l : list A) :
  insert_at i x l ≡ₚ x :: l.
Proof.
  unfold insert_at. rewrite <- Permutation_middle.
  now rewrite take_drop.
Qed.
End SortedUnique.

Section Scenario.
Context `{Lower}.

(** Among the four members the power level alone decides. *)
Lemma scenario_lt (i j : string) (p q : Z) :
  String.length i = 1%nat -> String.length j = 1%nat ->
  Member.lt (member i p) (member j q) = (q <? p).
Proof.
  intros Hi Hj.
  rewrite Member_lt_by_power; [reflexivity|reflexivity|].
  destruct i as [|c [|? ?]]; try discriminate Hi.
  destruct j as [|d [|? ?]]; try discriminate Hj.
  reflexivity.
Qed.

Lemma scenario_strictly_in_order :
  strictly_in_order Member.lt [member_c; member_d; member_b; member_a].
Proof.
  unfold strictly_in_order, member_a, member_b, member_c, member_d.
  repeat constructor; rewrite scenario_lt; reflexivity.
Qed.

Lemma scenario_in_order :
  in_order Member.lt [member_c; member_d; member_b; member_a].
Proof.
  unfold in_order, member_a, member_b, member_c, member_d.
  repeat constructor; rewrite scenario_lt; reflexivity.
Qed.
End Scenario.

(** Runs the sort one comparison at a time. *)
Ltac by_power :=
  repeat (cbn [fold_left insort bisect];
          rewrite scenario_lt by reflexivity;
          simpl (_ <? _)).

(** C2: the members a(0), b(50), c(100), d(75) sort as c, d, b, a.  That
    is what a stable sort with [Member.__lt__] returns, it is the only
    ordered arrangement of the four, and in the collection [c, b, a]
    the position that keeps the order when d is inserted is index 1
    and no other, and the bisection puts it there. *)
Theorem members_sort_by_descending_power `{Lower} :
  sorted Member.lt [member_a; member_b; member_c; member_d]
    = [member_c; member_d; member_b; member_a] /\
  (forall l,
      l ≡ₚ [member_a; member_b; member_c; member_d] ->
      in_order Member.lt l ->
      l = [member_c; member_d; member_b; member_a]) /\
  sorted Member.lt [member_a; member_b; member_c]
    = [member_c; member_b; member_a] /\
  bisect Member.lt member_d [member_c; member_b; member_a] = 1%nat /\
  insort Member.lt member_d [member_c; member_b; member_a]
    = [member_c; member_d; member_b; member_a] /\
  (forall i,
      in_order Member.lt (insert_at i member_d [member_c; member_b; member_a]) <->
      i = 1%nat) /\
  [member_c; member_d; member_b; member_a] !! 1%nat = Some member_d.
Proof.
  assert (Huniq : forall l,
             l ≡ₚ [member_a; member_b; member_c; member_d] ->
             in_order Member.lt l ->
             l = [member_c; member_d; member_b; member_a]).
  { intros l Hp. apply in_order_unique; [apply scenario_strictly_in_order|].
    rewrite Hp.
    etransitivity; [|apply (Permutation_rev [member_a; member_b; member_d; member_c])].
    do 2 constructor. apply perm_swap. }
  split; [|split; [|split; [|split; [|split; [|split]]]]].
  - unfold sorted, member_a, member_b, member_c, member_d. by_power. reflexivity.
  - exact Huniq.
  - unfold sorted, member_a, member_b, member_c. by_power. reflexivity.
  - unfold member_a, member_b, member_c, member_d. by_power. reflexivity.
  - unfold member_a, member_b, member_c, member_d. by_power. reflexivity.
  - intros i. split; [intros Ho|intros ->; apply scenario_in_order].
    assert (Heq : insert_at i member_d [member_c; member_b; member_a]
                  = [member_c; member_d; member_b; member_a]).
    { apply Huniq; [|exact Ho]. rewrite insert_at_perm.
      etransitivity; [|apply (Permutation_rev [member_d; member_c; member_b; member_a])].
      reflexivity. }
    destruct i as [|[|[|i]]]; cbn in Heq; try discriminate Heq; reflexivity.
  - reflexivity.
Qed.

(** ** Construction checks the required fields *)

Section Construct.
Context (raise_ : error) (c : class) (now : datetime) (kwargs : attrs).

Lemma missing_nil_iff :
  missing c kwargs = [] <-> forall f, f ∈ required c -> is_Some (kwargs !! f).
Proof.
  unfold missing. split.
  - intros Hnil f Hf.
    destruct (kwargs !! f) as [v|] eqn:Hk; [eauto|].
    assert (Hin : f ∈ filter (fun k => bool_decide (kwargs !! k = None)) (required c)).
    { apply list_elem_of_filter. split; [|exact Hf].
      apply bool_decide_pack. exact Hk. }
    rewrite Hnil in Hin. inversion Hin.
  - intros Hall. apply elem_of_nil_inv. intros f Hin.
    apply list_elem_of_filter in Hin as [Hnone Hf].
    apply bool_decide_unpack in Hnone.
    destruct (Hall f Hf) as [v Hv]. congruence.
Qed.

Lemma unexpected_nil_iff :
  unexpected c kwargs = [] <->
  forall f, is_Some (kwargs !! f) -> f ∈ init_names c.
Proof.
  unfold unexpected. split.
  - intros Hnil f [v Hv].
    destruct (decide (f ∈ init_names c)) as [Hin|Hout]; [exact Hin|].
    assert (Hin : f ∈ filter (fun k => bool_decide (k ∉ init_names c))
                      (map fst (map_to_list kwargs))).
    { apply list_elem_of_filter. split; [now apply bool_decide_pack|].
      apply list_elem_of_In, in_map_iff. exists (f, v). split; [reflexivity|].
      apply list_elem_of_In, elem_of_map_to_list. exact Hv. }
    rewrite Hnil in Hin. inversion Hin.
  - intros Hall. apply elem_of_nil_inv. intros f Hin.
    apply list_elem_of_filter in Hin as [Hout Hf].
    apply bool_decide_unpack in Hout. apply Hout, Hall.
    apply list_elem_of_In, in_map_iff in Hf as ([f' v] & <- & Hfv).
    apply list_elem_of_In, elem_of_map_to_list in Hfv. eauto.
Qed.

Lemma construct_with_missing :
  (exists f, f ∈ required c /\ kwargs !! f = None) ->
  construct_with raise_ c now kwargs = Err raise_.
Proof.
  intros (f & Hf & Hnone). unfold construct_with.
  destruct (missing c kwargs) as [|m ms] eqn:Hm.
  - destruct (proj1 missing_nil_iff Hm f Hf) as [v Hv]. congruence.
  - destruct (unexpected c kwargs); reflexivity.
Qed.

Lemma construct_with_unexpected :
  (exists f, is_Some (kwargs !! f) /\ f ∉ init_names c) ->
  construct_with raise_ c now kwargs = Err raise_.
Proof.
  intros (f & Hf & Hout). unfold construct_with.
  destruct (unexpected c kwargs) as [|u us] eqn:Hu; [|reflexivity].
  destruct Hout. now apply (proj1 unexpected_nil_iff Hu).
Qed.

Lemma construct_with_complete :
  (forall f, f ∈ required c -> is_Some (kwargs !! f)) ->
  (forall f, is_Some (kwargs !! f) -> f ∈ init_names c) ->
  construct_with raise_ c now kwargs
  = Ok (post_init c (store_fields now (fields c) kwargs)).
Proof.
  intros Hreq Hknown. unfold construct_with.
  rewrite (proj2 missing_nil_iff Hreq), (proj2 unexpected_nil_iff Hknown).
  reflexivity.
Qed.
End Construct.


(** A computable check that the required fields are constructor
    parameters. *)
Lemma required_init_check (c : class) :
  forallb (fun f => bool_decide (f ∈ init_names c)) (required c) = true ->
  required c ⊆ init_names c.
Proof.
  intros Hall f Hf. rewrite forallb_forall in Hall.
  apply list_elem_of_In in Hf. apply Hall in Hf.
  now apply bool_decide_eq_true in Hf.
Qed.

(** C6: constructing a record of any class with a required field missing
    fails with the class' construction error, and with every required
    field supplied (and no field the class does not declare) it
    succeeds.  A harmonyqml Account requires [userId] and
    [roomCategories]; an Event requires [id], [event_id], [source],
    [date], [sender_id], [sender_name] and [sender_avatar]; in every
    record class the required fields are parameters of the constructor. *)
Theorem construct_checks_required `{HtmlFilter}
    (k : kind) (c : class) (now : datetime) (kwargs : attrs) :
  ((exists f, f ∈ required c /\ kwargs !! f = None) ->
   exists e, construct k c now kwargs = Err e /\ construction_error e) /\
  ((forall f, f ∈ required c -> is_Some (kwargs !! f)) ->
   (forall f, is_Some (kwargs !! f) -> f ∈ init_names c) ->
   exists r, construct k c now kwargs = Ok r) /\
  required Harmony.Account = ["userId"; "roomCategories"] /\
  required Event_class =
    ["id"; "event_id"; "source"; "date"; "sender_id"; "sender_name";
     "sender_avatar"] /\
  Forall (fun kc => required kc.2 ⊆ init_names kc.2) record_classes.
Proof.
  split; [|split; [|split; [|split]]].
  - intros Hmiss. destruct k; unfold construct, dataclass_construct, ListItem_construct.
    + exists TypeError. split; [|now left].
      now apply construct_with_missing.
    + exists SchemaError. split; [|now right].
      now apply construct_with_missing.
  - intros Hreq Hknown.
    destruct k; unfold construct, dataclass_construct, ListItem_construct;
      eexists; now apply construct_with_complete.
  - reflexivity.
  - vm_compute. reflexivity.
  - unfold record_classes.
    repeat first [apply Forall_nil_2 | apply Forall_cons_2];
      apply required_init_check; vm_compute; reflexivity.
Qed.

(** [Event(...)] with its seven required fields is built; without
    [date] the call raises. *)
Lemma construct_checks_required_witness :
  (exists r, construct Dataclass (@Event_class plain_filter) 0 event_kwargs = Ok r) /\
  (exists e, construct Dataclass (@Event_class plain_filter) 0 event_kwargs_no_date = Err e
             /\ construction_error e).
Proof.
  split.
  - apply (@construct_checks_required plain_filter Dataclass
             (@Event_class plain_filter) 0 event_kwargs).
    + apply (proj1 (missing_nil_iff _ _)). vm_compute. reflexivity.
    + apply (proj1 (unexpected_nil_iff _ _)). vm_compute. reflexivity.
  - apply (@construct_checks_required plain_filter Dataclass
             (@Event_class plain_filter) 0 event_kwargs_no_date).
    exists "date". split.
    + apply (bool_decide_unpack _). vm_compute. exact I.
    + unfold event_kwargs_no_date. apply lookup_delete_eq.
Defined.

(** ** Constant fields *)

Section Writes.
Context (c : class).


Lemma set_field_mutable (f : string) (v : value) (r : live) :
  f ∉ constant c ->
  snd (set_field c f v r) = Ok tt /\
  live_attrs (fst (set_field c f v r)) !! f = Some v.
Proof.
  intros Hf. unfold set_field. rewrite bool_decide_eq_false_2 by exact Hf.
  cbn. split; [reflexivity|apply lookup_insert_eq].
Qed.


End Writes.




(** ** [Event.serialized] drops the two fields that hold Python objects *)

Lemma py_del_present (key : string) (dct : attrs) :
  is_Some (dct !! key) -> py_del key dct = Ok (delete key dct).
Proof. intros [v Hv]. unfold py_del. now rewrite Hv. Qed.

Lemma py_del_absent (key : string) (dct : attrs) :
  dct !! key = None -> py_del key dct = Err (KeyError key).
Proof. intros Hv. unfold py_del. now rewrite Hv. Qed.

(** C8: when the dictionary of the parent class lists [source] and
    [local_event_type], as it lists every field, [e.serialized] returns
    a dictionary without these two keys in which every other key keeps
    its entry. *)
Theorem Event_serialized_drops_source (super_serialized : Event.t -> attrs)
    (e : Event.t) :
  is_Some (super_serialized e !! "source") ->
  is_Some (super_serialized e !! "local_event_type") ->
  exists dct,
    Event_serialized super_serialized e = Ok dct /\
    dct !! "source" = None /\
    dct !! "local_event_type" = None /\
    forall key, key <> "source" -> key <> "local_event_type" ->
                dct !! key = super_serialized e !! key.
Proof.
  intros Hsrc Hlet.
  exists (delete "local_event_type" (delete "source" (super_serialized e))).
  split; [|split; [|split]].
  - unfold Event_serialized. cbn [mbind result_bind].
    rewrite (py_del_present "source") by exact Hsrc.
    cbn [mbind result_bind].
    rewrite (py_del_present "local_event_type"); [reflexivity|].
    rewrite lookup_delete_ne by discriminate. exact Hlet.
  - rewrite lookup_delete_ne by discriminate. apply lookup_delete_eq.
  - apply lookup_delete_eq.
  - intros key Hs Hl. rewrite !lookup_delete_ne by congruence. reflexivity.
Qed.

(** The theorem at an event whose parent dictionary holds [id], [date],
    [source] and [local_event_type]: [id] and [date] stay. *)
Lemma Event_serialized_drops_source_witness :
  is_Some (sample_serialized event_1 !! "source") /\
  is_Some (sample_serialized event_1 !! "local_event_type") /\
  exists dct,
    Event_serialized sample_serialized event_1 = Ok dct /\
    dct !! "source" = None /\
    dct !! "local_event_type" = None /\
    forall key, key <> "source" -> key <> "local_event_type" ->
                dct !! key = sample_serialized event_1 !! key.
Proof.
  assert (Hsrc : is_Some (sample_serialized event_1 !! "source")).
  { eexists. vm_compute. reflexivity. }
  assert (Hlet : is_Some (sample_serialized event_1 !! "local_event_type")).
  { eexists. vm_compute. reflexivity. }
  split; [exact Hsrc|]. split; [exact Hlet|].
  exact (Event_serialized_drops_source sample_serialized event_1 Hsrc Hlet).
Defined.

(** Without the keys the [del] raises: the hypotheses are needed. *)
Lemma Event_serialized_KeyError (super_serialized : Event.t -> attrs)
    (e : Event.t) :
  super_serialized e !! "source" = None ->
  Event_serialized super_serialized e = Err (KeyError "source").
Proof.
  intros Hsrc. unfold Event_serialized. cbn [mbind result_bind].
  now rewrite py_del_absent.
Qed.

(** ** The sort rules are strict weak orders *)

#[global] Instance bool_PyOrdTrans : PyOrdTrans bool.
Proof. intros [] [] []; cbn; congruence. Qed.

#[global] Instance Z_PyOrdTrans : PyOrdTrans Z.
Proof.
  intros x y z Hxy Hyz. cbn in *.
  apply Z.ltb_lt in Hxy, Hyz. apply Z.ltb_lt. lia.
Qed.

#[global] Instance N_PyOrdTrans : PyOrdTrans N.
Proof.
  intros x y z Hxy Hyz. cbn in *.
  apply N.ltb_lt in Hxy, Hyz. apply N.ltb_lt. lia.
Qed.

Section SeqTrans.
Context {A : Type} `{PyOrdLaws A} `{!PyOrdTrans A}.

Lemma seq_ltb_trans (x y z : list A) :
  seq_ltb x y = true -> seq_ltb y z = true -> seq_ltb x z = true.
Proof.
  revert y z. induction x as [|a x IH]; intros [|b y] [|c z]; cbn;
    try congruence.
  destruct (py_eqb_reflect a b) as [->|Hab].
  - destruct (py_eqb_reflect b c) as [->|Hbc]; [apply IH|].
    intros _ Hlt. exact Hlt.
  - destruct (py_eqb_reflect b c) as [->|Hbc].
    + rewrite (proj2 (py_eqb_neq a c) Hab). intros Hlt _. exact Hlt.
    + intros Hlt1 Hlt2.
      pose proof (py_ltb_trans _ _ _ Hlt1 Hlt2) as Hac.
      destruct (py_eqb_reflect a c) as [->|Hne]; [|exact Hac].
      rewrite (py_ltb_asym _ _ Hlt1) in Hlt2. discriminate Hlt2.
Qed.

#[global] Instance seq_PyOrdTrans : PyOrdTrans (list A).
Proof. intros x y z. apply seq_ltb_trans. Qed.
End SeqTrans.

Section TupleTrans.
Context {A B : Type} `{PyOrdLaws A} `{PyOrdLaws B}
  `{!PyOrdTrans A} `{!PyOrdTrans B}.

#[global] Instance tuple_PyOrdTrans : PyOrdTrans (A * B).
Proof.
  intros [a b] [a' b'] [a'' b'']. cbn.
  destruct (py_eqb_reflect a a') as [->|Hab].
  - destruct (py_eqb_reflect a' a'') as [->|Hbc]; [apply py_ltb_trans|].
    intros _ Hlt. exact Hlt.
  - destruct (py_eqb_reflect a' a'') as [->|Hbc].
    + rewrite (proj2 (py_eqb_neq a a'') Hab). intros Hlt _. exact Hlt.
    + intros Hlt1 Hlt2.
      pose proof (py_ltb_trans _ _ _ Hlt1 Hlt2) as Hac.
      destruct (py_eqb_reflect a a'') as [->|Hne]; [|exact Hac].
      rewrite (py_ltb_asym _ _ Hlt1) in Hlt2. discriminate Hlt2.
Qed.
End TupleTrans.

Section DescLaws.
Context {A : Type} `{PyOrdLaws A}.

#[global] Instance desc_PyOrdLaws : PyOrdLaws (desc A).
Proof.
  split.
  - intros [x] [y]. cbn. rewrite py_eqb_eq. split; congruence.
  - intros [x]. cbn. apply py_ltb_irrefl.
  - intros [x] [y]. cbn. apply py_ltb_asym.
  - intros [x] [y]. cbn. intros Hxy Hyx. f_equal.
    now apply py_ltb_connex.
Qed.

#[global] Instance desc_PyOrdTrans `{!PyOrdTrans A} : PyOrdTrans (desc A).
Proof.
  intros [x] [y] [z]. cbn. intros Hxy Hyz.
  exact (py_ltb_trans _ _ _ Hyz Hxy).
Qed.
End DescLaws.

Section KeyForm.
Context `{Lower}.

(** [Room.__lt__] and [Member.__lt__] compare the sort keys: the keys
    taken from [other] on the left are descending ones. *)
Lemma Room_lt_sort_key (a b : Room.t) :
  Room.lt a b = (Room_sort_key a <?> Room_sort_key b).
Proof. reflexivity. Qed.

Lemma Member_lt_sort_key (a b : Member.t) :
  Member.lt a b = (Member_sort_key a <?> Member_sort_key b).
Proof. reflexivity. Qed.

Lemma Room_sort_key_eq (a b : Room.t) :
  Room_sort_key a = Room_sort_key b <-> Room_key a = Room_key b.
Proof.
  unfold Room_sort_key, Room_key. split; intros [= Hl Hi Hd Hn]; congruence.
Qed.

Lemma Member_sort_key_eq (a b : Member.t) :
  Member_sort_key a = Member_sort_key b <-> Member_key a = Member_key b.
Proof.
  unfold Member_sort_key, Member_key. split; intros [= Hi Hp Hn]; congruence.
Qed.
End KeyForm.

(** X1: every [__lt__] is transitive: if [a] sorts before [b] and [b]
    before [c], then [a] sorts before [c]. *)
Theorem lt_transitive `{Lower} :
  (forall a b c : Account.t,
      Account.lt a b = true -> Account.lt b c = true -> Account.lt a c = true) /\
  (forall a b c : Room.t,
      Room.lt a b = true -> Room.lt b c = true -> Room.lt a c = true) /\
  (forall a b c : Member.t,
      Member.lt a b = true -> Member.lt b c = true -> Member.lt a c = true) /\
  (forall a b c : Upload.t,
      Upload.lt a b = true -> Upload.lt b c = true -> Upload.lt a c = true) /\
  (forall a b c : Event.t,
      Event.lt a b = true -> Event.lt b c = true -> Event.lt a c = true).
Proof.
  split; [|split; [|split; [|split]]]; intros a b c.
  - unfold Account.lt. apply py_ltb_trans.
  - rewrite !Room_lt_sort_key. apply py_ltb_trans.
  - rewrite !Member_lt_sort_key. apply py_ltb_trans.
  - unfold Upload.lt, py_gtb. intros Hab Hbc.
    exact (py_ltb_trans _ _ _ Hbc Hab).
  - unfold Event.lt, py_gtb. intros Hab Hbc.
    exact (py_ltb_trans _ _ _ Hbc Hab).
Qed.

(** Three events one second apart sort newest first, step by step and
    across. *)
Lemma lt_transitive_witness :
  Event.lt (event "$c" 3000) (event "$b" 2000) = true /\
  Event.lt (event "$b" 2000) (event "$a" 1000) = true /\
  Event.lt (event "$c" 3000) (event "$a" 1000) = true.
Proof.
  assert (H1 : Event.lt (event "$c" 3000) (event "$b" 2000) = true)
    by reflexivity.
  assert (H2 : Event.lt (event "$b" 2000) (event "$a" 1000) = true)
    by reflexivity.
  split; [exact H1|]. split; [exact H2|].
  exact (proj2 (proj2 (proj2 (proj2 (@lt_transitive ascii_lower))))
           _ _ _ H1 H2).
Defined.

Section TieCompat.
Context {K : Type} `{PyOrdLaws K}.

(** A record that ties with [a] compares like [a] with everything. *)
Lemma py_ltb_tie_compat (a b c : K) :
  py_ltb a b = false -> py_ltb b a = false ->
  py_ltb a c = py_ltb b c /\ py_ltb c a = py_ltb c b.
Proof.
  intros Hab Hba. assert (a = b) as -> by now apply py_ltb_connex.
  split; reflexivity.
Qed.
End TieCompat.

(** X2: records that tie are interchangeable for sorting: if neither of
    [a] and [b] sorts before the other, then [a] and [b] sort alike
    against every third record [c]. *)
Theorem lt_respects_ties `{Lower} :
  (forall a b c : Account.t, tied Account.lt a b ->
      Account.lt a c = Account.lt b c /\ Account.lt c a = Account.lt c b) /\
  (forall a b c : Room.t, tied Room.lt a b ->
      Room.lt a c = Room.lt b c /\ Room.lt c a = Room.lt c b) /\
  (forall a b c : Member.t, tied Member.lt a b ->
      Member.lt a c = Member.lt b c /\ Member.lt c a = Member.lt c b) /\
  (forall a b c : Upload.t, tied Upload.lt a b ->
      Upload.lt a c = Upload.lt b c /\ Upload.lt c a = Upload.lt c b) /\
  (forall a b c : Event.t, tied Event.lt a b ->
      Event.lt a c = Event.lt b c /\ Event.lt c a = Event.lt c b).
Proof.
  split; [|split; [|split; [|split]]]; intros a b c [Hab Hba].
  - unfold Account.lt in *. now apply py_ltb_tie_compat.
  - rewrite !Room_lt_sort_key in *. now apply py_ltb_tie_compat.
  - rewrite !Member_lt_sort_key in *. now apply py_ltb_tie_compat.
  - unfold Upload.lt, py_gtb in *.
    destruct (py_ltb_tie_compat _ _ (Upload.start_date c) Hba Hab) as [H1 H2].
    split; [exact H2|exact H1].
  - unfold Event.lt, py_gtb in *.
    destruct (py_ltb_tie_compat _ _ (Event.date c) Hba Hab) as [H1 H2].
    split; [exact H2|exact H1].
Qed.

(** Two events of one instant sort alike against a later one. *)
Lemma lt_respects_ties_witness :
  tied Event.lt event_1 event_2 /\
  Event.lt event_1 (event "$later" 2000) = Event.lt event_2 (event "$later" 2000).
Proof.
  assert (Ht : tied Event.lt event_1 event_2) by (split; reflexivity).
  split; [exact Ht|].
  exact (proj1 (proj2 (proj2 (proj2 (proj2 (@lt_respects_ties ascii_lower))))
                  event_1 event_2 (event "$later" 2000) Ht)).
Defined.

(** ** Rooms: invitations, then joined rooms, then left rooms *)

Section RoomStates.
Context `{Lower}.

Lemma Room_lt_by_state (r1 r2 : Room.t) :
  (RoomDoc.rank (RoomDoc.state_of r1) < RoomDoc.rank (RoomDoc.state_of r2))%Z ->
  Room.lt r1 r2 = true.
Proof.
  unfold Room.lt, RoomDoc.state_of.
  rewrite !tuple_ltb_unfold, !tuple_eqb_unfold.
  destruct (Room.left r1) eqn:L1, (Room.left r2) eqn:L2;
    cbn [andb py_eqb py_ltb bool_PyOrd Bool.eqb negb].
  - cbn. lia.
  - destruct (Room.inviter_id r2); cbn; lia.
  - intros _. reflexivity.
  - destruct (Room.inviter_id r1) as [|c1 s1], (Room.inviter_id r2) as [|c2 s2];
      cbn; lia.
Qed.
End RoomStates.

(** X3: a room in an earlier state always sorts first: an invitation
    before a joined room, and both before a room that was left,
    whatever their dates and names. *)
Theorem Room_lt_state_first `{Lower} (r1 r2 : Room.t) :
  (RoomDoc.rank (RoomDoc.state_of r1) < RoomDoc.rank (RoomDoc.state_of r2))%Z ->
  Room.lt r1 r2 = true /\ Room.lt r2 r1 = false.
Proof.
  intros Hrank. assert (Hlt := Room_lt_by_state r1 r2 Hrank).
  split; [exact Hlt|]. now apply Room_lt_asym.
Qed.

(** An invitation with the oldest event sorts before a joined room with
    the newest. *)
Lemma Room_lt_state_first_witness :
  (RoomDoc.rank (RoomDoc.state_of room_invited)
   < RoomDoc.rank (RoomDoc.state_of room_joined))%Z /\
  (Room.last_event_date room_invited < Room.last_event_date room_joined)%Z /\
  @Room.lt ascii_lower room_invited room_joined = true /\
  @Room.lt ascii_lower room_joined room_invited = false.
Proof.
  assert (Hrank : (RoomDoc.rank (RoomDoc.state_of room_invited)
                   < RoomDoc.rank (RoomDoc.state_of room_joined))%Z)
    by reflexivity.
  split; [exact Hrank|]. split; [reflexivity|].
  exact (@Room_lt_state_first ascii_lower room_invited room_joined Hrank).
Defined.

(** ** What a sorted list looks like *)

Section InOrder.
Context {A : Type} (lt : A -> A -> bool).

(** A list is in order exactly when no element sorts before an element
    at a smaller index. *)
Lemma in_order_lookup (l : list A) :
  in_order lt l <->
  forall i j x y, (i < j)%nat -> l !! i = Some x -> l !! j = Some y ->
                  lt y x = false.
Proof.
  unfold in_order. split.
  - induction 1 as [|a l Hs IH Ha]; intros i j x y Hij Hi Hj.
    + rewrite lookup_nil in Hi. discriminate Hi.
    + destruct j as [|j]; [lia|]. cbn in Hj.
      destruct i as [|i]; cbn in Hi.
      * injection Hi as <-. rewrite Forall_forall in Ha.
        apply Ha. eapply list_elem_of_lookup_2. exact Hj.
      * apply (IH i j); [lia|exact Hi|exact Hj].
  - induction l as [|a l IH]; intros Hall; constructor.
    + apply IH. intros i j x y Hij Hi Hj.
      apply (Hall (S i) (S j)); [lia|exact Hi|exact Hj].
    + apply Forall_forall. intros y Hy.
      apply list_elem_of_lookup_1 in Hy as [j Hj].
      apply (Hall 0%nat (S j)); [lia|reflexivity|exact Hj].
Qed.
End InOrder.

(** X4: a list of events, or of uploads, is in order under [__lt__]
    exactly when its dates never increase from one index to a later
    one: the newest comes first, and equal dates may stand in any
    order. *)
Theorem in_order_newest_first :
  (forall l : list Event.t,
      in_order Event.lt l <->
      forall i j e1 e2, (i < j)%nat -> l !! i = Some e1 -> l !! j = Some e2 ->
                        (Event.date e2 <= Event.date e1)%Z) /\
  (forall l : list Upload.t,
      in_order Upload.lt l <->
      forall i j u1 u2, (i < j)%nat -> l !! i = Some u1 -> l !! j = Some u2 ->
                        (Upload.start_date u2 <= Upload.start_date u1)%Z).
Proof.
  split; intros l; rewrite in_order_lookup; split; intros Hall i j x y Hij Hi Hj;
    specialize (Hall i j x y Hij Hi Hj).
  - unfold Event.lt, py_gtb in Hall. cbn in Hall. apply Z.ltb_ge in Hall. lia.
  - unfold Event.lt, py_gtb. cbn. apply Z.ltb_ge. lia.
  - unfold Upload.lt, py_gtb in Hall. cbn in Hall. apply Z.ltb_ge in Hall. lia.
  - unfold Upload.lt, py_gtb. cbn. apply Z.ltb_ge. lia.
Qed.

(** X5: in a list of rooms that is in order under [Room.__lt__], the
    invitations come first, then the joined rooms, then the left rooms:
    the state never goes back from one index to a later one. *)
Theorem Room_in_order_by_state `{Lower} (l : list Room.t) :
  in_order Room.lt l ->
  forall i j r1 r2, (i < j)%nat -> l !! i = Some r1 -> l !! j = Some r2 ->
    (RoomDoc.rank (RoomDoc.state_of r1) <= RoomDoc.rank (RoomDoc.state_of r2))%Z.
Proof.
  intros Ho i j r1 r2 Hij Hi Hj.
  pose proof (proj1 (in_order_lookup Room.lt l) Ho i j r1 r2 Hij Hi Hj) as Hno.
  destruct (Z.le_gt_cases (RoomDoc.rank (RoomDoc.state_of r1))
              (RoomDoc.rank (RoomDoc.state_of r2))) as [Hle|Hgt]; [exact Hle|].
  rewrite (Room_lt_by_state r2 r1 Hgt) in Hno. discriminate Hno.
Qed.

(** The invitation, the joined room and the left room, in this order. *)
Lemma Room_in_order_by_state_witness :
  in_order (@Room.lt ascii_lower) [room_invited; room_joined; room_left] /\
  (RoomDoc.rank (RoomDoc.state_of room_invited)
   <= RoomDoc.rank (RoomDoc.state_of room_left))%Z.
Proof.
  assert (Ho : in_order (@Room.lt ascii_lower)
                 [room_invited; room_joined; room_left]).
  { unfold in_order. repeat constructor. }
  split; [exact Ho|].
  apply (@Room_in_order_by_state ascii_lower _ Ho 0%nat 2%nat); [lia|reflexivity..].
Defined.

(** X6: in a list of members that is in order under [Member.__lt__], no
    invited member stands before a joined one, and among members with
    the same [invited] flag the power level never increases. *)
Theorem Member_in_order_by_power `{Lower} (l : list Member.t) :
  in_order Member.lt l ->
  forall i j m1 m2, (i < j)%nat -> l !! i = Some m1 -> l !! j = Some m2 ->
    (Member.invited m1 = true -> Member.invited m2 = true) /\
    (Member.invited m1 = Member.invited m2 ->
     (Member.power_level m2 <= Member.power_level m1)%Z).
Proof.
  intros Ho i j m1 m2 Hij Hi Hj.
  pose proof (proj1 (in_order_lookup Member.lt l) Ho i j m1 m2 Hij Hi Hj) as Hno.
  split.
  - intros H1. destruct (Member.invited m2) eqn:H2; [reflexivity|].
    assert (Hlt : Member.lt m2 m1 = true).
    { apply Member_lt_spec. left. split; [exact H2|exact H1]. }
    congruence.
  - intros Hsame.
    destruct (Z.le_gt_cases (Member.power_level m2) (Member.power_level m1))
      as [Hle|Hgt]; [exact Hle|].
    assert (Hlt : Member.lt m2 m1 = true).
    { apply Member_lt_spec. right. split; [congruence|]. left. lia. }
    congruence.
Qed.

(** The four members of the scenario, in their order. *)
Lemma Member_in_order_by_power_witness :
  in_order (@Member.lt ascii_lower) [member_c; member_d; member_b; member_a] /\
  (Member.power_level member_a <= Member.power_level member_c)%Z.
Proof.
  assert (Ho : in_order (@Member.lt ascii_lower)
                 [member_c; member_d; member_b; member_a]).
  { unfold in_order. repeat constructor. }
  split; [exact Ho|].
  apply (@Member_in_order_by_power ascii_lower _ Ho 0%nat 3%nat);
    [lia|reflexivity..].
Defined.

(** ** [Event.links] *)

Lemma lstrip_all_space (s : str) :
  Forall (fun c => py_isspace c = true) s -> lstrip s = [].
Proof.
  induction 1 as [|c s Hc _ IH]; cbn; [reflexivity|]. now rewrite Hc.
Qed.

Lemma lstrip_nil_inv (s : str) :
  lstrip s = [] -> Forall (fun c => py_isspace c = true) s.
Proof.
  induction s as [|c s IH]; cbn; [constructor|].
  destruct (py_isspace c) eqn:Hc; [|discriminate].
  intros Hs. constructor; [exact Hc|now apply IH].
Qed.

(** What [lstrip] returns is empty or starts with a character that is
    not whitespace. *)
Lemma lstrip_head (s : str) :
  match lstrip s with
  | [] => True
  | c :: _ => py_isspace c = false
  end.
Proof.
  induction s as [|c s IH]; cbn; [exact I|].
  destruct (py_isspace c) eqn:Hc; [exact IH|exact Hc].
Qed.

(** Stripping leaves nothing exactly of the blank strings. *)
Lemma strip_nil_iff (s : str) :
  strip s = [] <-> Forall (fun c => py_isspace c = true) s.
Proof.
  unfold strip, rstrip. split.
  - intros Hs. apply lstrip_nil_inv.
    destruct (lstrip s) as [|c t] eqn:Hl; [reflexivity|].
    assert (Hr : lstrip (rev (c :: t)) = []).
    { destruct (lstrip (rev (c :: t))) as [|x r]; [reflexivity|].
      cbn in Hs. apply app_eq_nil in Hs as [_ Hs]. discriminate Hs. }
    clear Hs. apply lstrip_nil_inv in Hr. rename Hr into Hs.
    pose proof (lstrip_head s) as Hh. rewrite Hl in Hh.
    apply Forall_rev in Hs. rewrite rev_involutive in Hs.
    inversion Hs; subst. congruence.
  - intros Hs. rewrite (lstrip_all_space s Hs). reflexivity.
Qed.

Section LinksFacts.
Context (iterlinks : str -> list (pyobj * option str * str * Z)).

Lemma Event_links_media_last (e : Event.t) :
  Event.media_url e <> [] ->
  last (Event_links iterlinks e) = Some (Event.media_url e).
Proof.
  intros Hm. unfold Event_links.
  destruct (Event.media_url e) as [|c s] eqn:Hu; [contradiction|].
  cbn [str_bool]. apply last_snoc.
Qed.
End LinksFacts.

(** X7: for an event whose [content] is empty or only whitespace the
    HTML parser's result is not used: [links] is just the media url, or
    empty when there is none. *)
Theorem Event_links_blank_content
    (iterlinks : str -> list (pyobj * option str * str * Z)) (e : Event.t) :
  Forall (fun c => py_isspace c = true) (Event.content e) ->
  Event_links iterlinks e
  = match Event.media_url e with
    | [] => []
    | _ :: _ => [Event.media_url e]
    end.
Proof.
  intros Hblank. unfold Event_links.
  rewrite (proj2 (strip_nil_iff _) Hblank). cbn.
  destruct (Event.media_url e); reflexivity.
Qed.

(** An event with empty content and no media has no links, although the
    parser would report one. *)
Lemma Event_links_blank_content_witness :
  Forall (fun c => py_isspace c = true) (Event.content event_1) /\
  Event_links sample_iterlinks event_1 = [].
Proof.
  assert (Hb : Forall (fun c => py_isspace c = true) (Event.content event_1))
    by constructor.
  split; [exact Hb|].
  exact (Event_links_blank_content sample_iterlinks event_1 Hb).
Defined.

(** X8: [links] lists the links of the document first and the media url
    last: for content with a character that is not whitespace it is all
    the links the parser reports, in the parser's order, followed by the
    media url when there is one.  With a media url the list is never
    empty and ends with it; it is empty exactly when there is no media
    url and the content is blank or has no link. *)
Theorem Event_links_media_url_last
    (iterlinks : str -> list (pyobj * option str * str * Z)) (e : Event.t) :
  (Exists (fun c => py_isspace c = false) (Event.content e) ->
   Event_links iterlinks e
   = map (fun link => link.1.2) (iterlinks (Event.content e))
     ++ match Event.media_url e with
        | [] => []
        | _ :: _ => [Event.media_url e]
        end) /\
  (Event.media_url e <> [] ->
   last (Event_links iterlinks e) = Some (Event.media_url e)) /\
  (Event.media_url e = [] ->
   Forall (fun url => url ∈ map (fun link => link.1.2)
                              (iterlinks (Event.content e)))
     (Event_links iterlinks e)) /\
  (Event_links iterlinks e = [] <->
   Event.media_url e = [] /\
   (Forall (fun c => py_isspace c = true) (Event.content e) \/
    iterlinks (Event.content e) = [])).
Proof.
  split.
  { intros Hex. unfold Event_links.
    destruct (strip (Event.content e)) as [|c t] eqn:Hs.
    - apply strip_nil_iff in Hs. rewrite Forall_forall in Hs.
      apply Exists_exists in Hex as (c & Hc & Hns).
      rewrite (Hs c Hc) in Hns. discriminate Hns.
    - cbn [str_bool app].
      destruct (Event.media_url e); cbn [str_bool];
        [now rewrite app_nil_r|reflexivity]. }
  split; [apply Event_links_media_last|]. split.
  - intros Hm. unfold Event_links. rewrite Hm. cbn [str_bool].
    destruct (str_bool (strip (Event.content e))); [|constructor].
    cbn [app]. apply Forall_forall. intros url Hurl. exact Hurl.
  - unfold Event_links.
    destruct (Event.media_url e) as [|c s] eqn:Hu; cbn [str_bool].
    + destruct (strip (Event.content e)) as [|c t] eqn:Hs; cbn [str_bool app].
      * split; [|reflexivity]. intros _. split; [reflexivity|].
        left. now apply strip_nil_iff.
      * split.
        -- intros Hnil. split; [reflexivity|]. right.
           destruct (iterlinks (Event.content e)); [reflexivity|discriminate].
        -- intros [_ [Hblank|Hnone]].
           ++ apply strip_nil_iff in Hblank. congruence.
           ++ now rewrite Hnone.
    + split.
      * intros Hnil. apply app_eq_nil in Hnil as [_ Hnil]. discriminate.
      * intros [Hnil _]. discriminate.
Qed.

(** An event with a link in its text and an attachment: the link of
    the text first, the attachment last. *)
Lemma Event_links_media_url_last_witness :
  Exists (fun c => py_isspace c = false) (Event.content media_event) /\
  Event.media_url media_event <> [] /\
  Event_links sample_iterlinks media_event
  = [of_ascii "x"; of_ascii "mxc://example.org/abc"] /\
  last (Event_links sample_iterlinks media_event)
  = Some (Event.media_url media_event).
Proof.
  assert (Hc : Exists (fun c => py_isspace c = false)
                 (Event.content media_event))
    by (apply Exists_cons_hd; reflexivity).
  assert (Hm : Event.media_url media_event <> []) by discriminate.
  destruct (Event_links_media_url_last sample_iterlinks media_event)
    as (Hdoc & Hlast & _).
  split; [exact Hc|]. split; [exact Hm|]. split.
  - rewrite (Hdoc Hc). reflexivity.
  - exact (Hlast Hm).
Defined.

(** ** [Event.serialized]: when the deletions raise *)

(** X9: [Event.serialized] returns exactly when the parent dictionary
    has both [source] and [local_event_type]; otherwise it raises
    [KeyError] for the first of the two keys that is not there, [source]
    before [local_event_type]. *)
Theorem Event_serialized_returns_iff (super_serialized : Event.t -> attrs)
    (e : Event.t) :
  ((exists dct, Event_serialized super_serialized e = Ok dct) <->
   is_Some (super_serialized e !! "source") /\
   is_Some (super_serialized e !! "local_event_type")) /\
  (super_serialized e !! "source" = None ->
   Event_serialized super_serialized e = Err (KeyError "source")) /\
  (is_Some (super_serialized e !! "source") ->
   super_serialized e !! "local_event_type" = None ->
   Event_serialized super_serialized e = Err (KeyError "local_event_type")).
Proof.
  assert (Hbind : Event_serialized super_serialized e
                  = dct ← py_del "source" (super_serialized e);
                    py_del "local_event_type" dct).
  { unfold Event_serialized. cbn [mbind result_bind].
    destruct (py_del "source" (super_serialized e)) as [d|err];
      cbn [mbind result_bind]; [|reflexivity].
    destruct (py_del "local_event_type" d); reflexivity. }
  assert (Hno_src : super_serialized e !! "source" = None ->
                    Event_serialized super_serialized e = Err (KeyError "source")).
  { intros Hs. rewrite Hbind, py_del_absent by exact Hs. reflexivity. }
  assert (Hno_let : is_Some (super_serialized e !! "source") ->
                    super_serialized e !! "local_event_type" = None ->
                    Event_serialized super_serialized e
                    = Err (KeyError "local_event_type")).
  { intros Hs Hl. rewrite Hbind, py_del_present by exact Hs.
    cbn [mbind result_bind]. apply py_del_absent.
    rewrite lookup_delete_ne by discriminate. exact Hl. }
  split; [|split; [exact Hno_src|exact Hno_let]].
  split.
  - intros [dct Hok].
    destruct (super_serialized e !! "source") as [v|] eqn:Hs.
    + split; [eauto|].
      destruct (super_serialized e !! "local_event_type") as [w|] eqn:Hl; [eauto|].
      rewrite Hno_let in Hok by eauto. discriminate Hok.
    + rewrite Hno_src in Hok by reflexivity. discriminate Hok.
  - intros [Hs Hl]. rewrite Hbind, py_del_present by exact Hs.
    cbn [mbind result_bind]. rewrite py_del_present; [eauto|].
    rewrite lookup_delete_ne by discriminate. exact Hl.
Qed.

(** A parent dictionary without [local_event_type]: the second [del]
    raises. *)
Lemma Event_serialized_returns_iff_witness :
  is_Some (delete "local_event_type" (sample_serialized event_1) !! "source") /\
  delete "local_event_type" (sample_serialized event_1) !! "local_event_type" = None /\
  Event_serialized (fun e => delete "local_event_type" (sample_serialized e)) event_1
  = Err (KeyError "local_event_type").
Proof.
  assert (Hs : is_Some (delete "local_event_type" (sample_serialized event_1)
                          !! "source")).
  { eexists. vm_compute. reflexivity. }
  assert (Hl : delete "local_event_type" (sample_serialized event_1)
                 !! "local_event_type" = None) by apply lookup_delete_eq.
  split; [exact Hs|]. split; [exact Hl|].
  exact (proj2 (proj2 (Event_serialized_returns_iff
                         (fun e => delete "local_event_type" (sample_serialized e))
                         event_1)) Hs Hl).
Defined.

(** ** [Event.__post_init__] *)

Section PostInit.
Context `{HtmlFilter}.

Lemma Event_post_init_other (self : attrs) (key : string) :
  key <> "inline_content" -> Event_post_init self !! key = self !! key.
Proof.
  intros Hk. unfold Event_post_init.
  destruct (self !! "inline_content") as [inline|]; [|reflexivity].
  destruct (self !! "content") as [content|]; [|reflexivity].
  destruct (truthy inline); [reflexivity|].
  now rewrite lookup_insert_ne.
Qed.

Lemma Event_post_init_keeps (self : attrs) (inline : value) :
  self !! "inline_content" = Some inline -> truthy inline = true ->
  Event_post_init self = self.
Proof.
  intros Hi Ht. unfold Event_post_init. rewrite Hi.
  destruct (self !! "content"); [|reflexivity]. now rewrite Ht.
Qed.

Lemma Event_post_init_derives (self : attrs) (inline content : value) :
  self !! "inline_content" = Some inline -> truthy inline = false ->
  self !! "content" = Some content ->
  Event_post_init self !! "inline_content" = Some (html_filter_inline content).
Proof.
  intros Hi Ht Hc. unfold Event_post_init. rewrite Hi, Hc, Ht.
  apply lookup_insert_eq.
Qed.

Lemma Event_post_init_idem (self : attrs) :
  Event_post_init (Event_post_init self) = Event_post_init self.
Proof.
  unfold Event_post_init at 2 3.
  destruct (self !! "inline_content") as [inline|] eqn:Hi;
    [|unfold Event_post_init; now rewrite Hi].
  destruct (self !! "content") as [content|] eqn:Hc;
    [|unfold Event_post_init; now rewrite Hi, Hc].
  destruct (truthy inline) eqn:Ht;
    [unfold Event_post_init; now rewrite Hi, Hc, Ht|].
  unfold Event_post_init.
  rewrite lookup_insert_eq, lookup_insert_ne, Hc by discriminate.
  destruct (truthy (html_filter_inline content)); [reflexivity|].
  apply insert_insert_eq.
Qed.
End PostInit.

(** X10: [Event.__post_init__] touches nothing but [inline_content]; it
    keeps an [inline_content] that is not empty, derives an empty one
    from [content] with the HTML filter, and running it again changes
    nothing. *)
Theorem Event_post_init_inline_content `{HtmlFilter} (self : attrs) :
  (forall key, key <> "inline_content" ->
               Event_post_init self !! key = self !! key) /\
  (forall inline, self !! "inline_content" = Some inline ->
                  truthy inline = true -> Event_post_init self = self) /\
  (forall inline content,
      self !! "inline_content" = Some inline -> truthy inline = false ->
      self !! "content" = Some content ->
      Event_post_init self !! "inline_content"
      = Some (html_filter_inline content)) /\
  Event_post_init (Event_post_init self) = Event_post_init self.
Proof.
  split; [apply Event_post_init_other|].
  split; [apply Event_post_init_keeps|].
  split; [apply Event_post_init_derives|apply Event_post_init_idem].
Qed.

(** An event built with [content] only gets its [inline_content] from
    the filter. *)
Lemma Event_post_init_inline_content_witness :
  content_only !! "inline_content" = Some empty_str /\
  truthy empty_str = false /\
  content_only !! "content" = Some (VStr (of_ascii "<b>hi</b>")) /\
  @Event_post_init plain_filter content_only !! "inline_content"
  = Some (VStr (of_ascii "<b>hi</b>")).
Proof.
  assert (Hi : content_only !! "inline_content" = Some empty_str)
    by (vm_compute; reflexivity).
  assert (Hc : content_only !! "content" = Some (VStr (of_ascii "<b>hi</b>")))
    by (vm_compute; reflexivity).
  split; [exact Hi|]. split; [reflexivity|]. split; [exact Hc|].
  exact (proj1 (proj2 (proj2 (@Event_post_init_inline_content plain_filter
                                content_only)))
           empty_str (VStr (of_ascii "<b>hi</b>")) Hi eq_refl Hc).
Defined.

(** ** What a dataclass construction stores *)

Section Stored.
Context (now : datetime) (kwargs : attrs).

Lemma store_fields_cons (f : field_decl) (fs : list field_decl) :
  store_fields now (f :: fs) kwargs
  = match field_value now kwargs f with
    | Some v => <[fname f := v]> (store_fields now fs kwargs)
    | None => store_fields now fs kwargs
    end.
Proof.
  unfold store_fields, field_value. cbn [foldr].
  destruct (if finit f then kwargs !! fname f else None); [reflexivity|].
  destruct (default_value now (fdefault f)); reflexivity.
Qed.

Lemma store_fields_undeclared (fs : list field_decl) (name : string) :
  name ∉ map fname fs -> store_fields now fs kwargs !! name = None.
Proof.
  induction fs as [|f fs IH]; intros Hout; [apply lookup_empty|].
  rewrite store_fields_cons. cbn [map] in Hout.
  apply not_elem_of_cons in Hout as [Hne Hout].
  destruct (field_value now kwargs f);
    [rewrite lookup_insert_ne by congruence|]; now apply IH.
Qed.

Lemma store_fields_declared (fs : list field_decl) (f : field_decl) :
  NoDup (map fname fs) -> f ∈ fs ->
  store_fields now fs kwargs !! fname f = field_value now kwargs f.
Proof.
  induction fs as [|g fs IH]; intros Hnd Hin; [inversion Hin|].
  cbn [map] in Hnd. apply NoDup_cons in Hnd as [Hg Hnd].
  rewrite store_fields_cons.
  apply elem_of_cons in Hin as [->|Hin].
  - destruct (field_value now kwargs g) as [v|] eqn:Hv.
    + apply lookup_insert_eq.
    + now apply store_fields_undeclared.
  - assert (Hne : fname g <> fname f).
    { intros Heq. apply Hg. rewrite Heq.
      apply list_elem_of_In, in_map, list_elem_of_In. exact Hin. }
    destruct (field_value now kwargs g);
      [rewrite lookup_insert_ne by exact Hne|]; now apply IH.
Qed.

(** The attributes of a constructed object, for a class whose
    [__post_init__] leaves every attribute but [inline_content] alone. *)
Lemma construct_with_stores (raise_ : error) (c : class) (r : attrs) :
  NoDup (map fname (fields c)) ->
  (forall a key, key <> "inline_content" -> post_init c a !! key = a !! key) ->
  construct_with raise_ c now kwargs = Ok r ->
  (forall f, f ∈ fields c -> fname f <> "inline_content" ->
             r !! fname f = field_value now kwargs f) /\
  (forall name, name ∉ map fname (fields c) -> name <> "inline_content" ->
                r !! name = None).
Proof.
  intros Hnd Hpost Hok. unfold construct_with in Hok.
  destruct (unexpected c kwargs); [|discriminate Hok].
  destruct (missing c kwargs); [|discriminate Hok].
  injection Hok as <-. split.
  - intros f Hf Hne. rewrite Hpost by exact Hne.
    now apply store_fields_declared.
  - intros name Hout Hne. rewrite Hpost by exact Hne.
    now apply store_fields_undeclared.
Qed.
End Stored.

(** A field declared with a bare [field()] is a required one. *)
Lemma dataclass_required (fs : list field_decl) (post : attrs -> attrs)
    (f : field_decl) :
  f ∈ fs -> finit f = true -> has_default f = false ->
  fname f ∈ required (dataclass fs post).
Proof.
  intros Hin Hi Hd. cbn [required dataclass].
  apply list_elem_of_In, in_map, list_elem_of_In, list_elem_of_filter.
  split; [|exact Hin]. rewrite Hi, Hd. exact I.
Qed.

(** Every declared field gets a value when nothing required is
    missing. *)
Lemma field_value_is_Some (now : datetime) (kwargs : attrs) (c : class)
    (f : field_decl) :
  missing c kwargs = [] ->
  (has_default f = false -> finit f = true /\ fname f ∈ required c) ->
  is_Some (field_value now kwargs f).
Proof.
  intros Hm Hreq. unfold field_value, has_default in *.
  destruct (fdefault f) eqn:Hd; cbn [default_value].
  - destruct (Hreq eq_refl) as [Hi Hr]. rewrite Hi.
    destruct (proj1 (missing_nil_iff c kwargs) Hm _ Hr) as [v Hv].
    rewrite Hv. eauto.
  - destruct (if finit f then kwargs !! fname f else None); eauto.
  - destruct (if finit f then kwargs !! fname f else None); eauto.
Qed.

Lemma Event_post_init_is_Some `{HtmlFilter} (self : attrs) (key : string) :
  is_Some (self !! key) -> is_Some (Event_post_init self !! key).
Proof.
  intros Hk. unfold Event_post_init.
  destruct (self !! "inline_content") as [inline|]; [|exact Hk].
  destruct (self !! "content") as [content|]; [|exact Hk].
  destruct (truthy inline); [exact Hk|].
  destruct (decide (key = "inline_content")) as [->|Hne].
  - rewrite lookup_insert_eq. eauto.
  - now rewrite lookup_insert_ne.
Qed.

(** What the six dataclasses have in common: no field name is declared
    twice; [__post_init__] changes nothing but a declared
    [inline_content] and unsets nothing; a field without a default is a
    required constructor parameter. *)
Lemma dataclasses_well_formed `{HtmlFilter} (c : class) :
  c ∈ dataclasses ->
  NoDup (map fname (fields c)) /\
  (forall a key, key <> "inline_content" -> post_init c a !! key = a !! key) /\
  (forall a name, name ∉ map fname (fields c) ->
                  post_init c a !! name = a !! name) /\
  (forall a key, is_Some (a !! key) -> is_Some (post_init c a !! key)) /\
  (forall f, f ∈ fields c -> has_default f = false ->
             finit f = true /\ fname f ∈ required c).
Proof.
  assert (Hreq : forall fs post f,
             forallb (fun g => finit g || has_default g) fs = true ->
             f ∈ fs -> has_default f = false ->
             finit f = true /\ fname f ∈ required (dataclass fs post)).
  { intros fs post f Hall Hin Hd. rewrite forallb_forall in Hall.
    assert (Hi : finit f = true).
    { apply list_elem_of_In, Hall in Hin. rewrite Hd, orb_false_r in Hin.
      exact Hin. }
    split; [exact Hi|now apply dataclass_required]. }
  intros Hc. unfold dataclasses in Hc.
  repeat (apply elem_of_cons in Hc as [->|Hc]);
    try (split; [apply (bool_decide_unpack _); vm_compute; exact I|];
         split; [first [ intros a key _; reflexivity
                       | intros a key Hk; now apply Event_post_init_other ]|];
         split; [first [ intros a name _; reflexivity
                       | intros a name Hout; apply Event_post_init_other;
                         intros ->; apply Hout;
                         apply (bool_decide_unpack _); vm_compute; exact I ]|];
         split; [first [ intros a key Hk; exact Hk
                       | intros a key Hk; now apply Event_post_init_is_Some ]|];
         intros f; apply Hreq; vm_compute; reflexivity).
  inversion Hc.
Qed.

(** X11: an object built from one of the dataclasses stores exactly the
    declared fields: every declared field has a value and no other name
    is stored.  A declared field other than [inline_content] holds the
    value that was passed for it, or the field's default when none was
    passed (for [start_date] the time of the call). *)
Theorem dataclass_construct_stores `{HtmlFilter} (c : class) (now : datetime)
    (kwargs r : attrs) :
  c ∈ dataclasses ->
  dataclass_construct c now kwargs = Ok r ->
  (forall f, f ∈ fields c -> fname f <> "inline_content" ->
             r !! fname f = field_value now kwargs f) /\
  (forall name, is_Some (r !! name) <-> name ∈ map fname (fields c)).
Proof.
  intros Hc Hok.
  destruct (dataclasses_well_formed c Hc)
    as (Hnd & Hpost & Hframe & Hkeep & Hreq).
  split;
    [exact (proj1 (construct_with_stores now kwargs TypeError c r Hnd Hpost Hok))|].
  unfold dataclass_construct, construct_with in Hok.
  destruct (unexpected c kwargs); [|discriminate Hok].
  destruct (missing c kwargs) eqn:Hm; [|discriminate Hok].
  injection Hok as <-. intros name. split.
  - intros Hsome.
    destruct (decide (name ∈ map fname (fields c))) as [Hin|Hout]; [exact Hin|].
    rewrite (Hframe _ name Hout) in Hsome.
    rewrite (store_fields_undeclared now kwargs _ name Hout) in Hsome.
    destruct Hsome as [v Hv]. discriminate Hv.
  - intros Hin. apply Hkeep.
    apply list_elem_of_In, in_map_iff in Hin as (f & <- & Hf).
    apply list_elem_of_In in Hf.
    rewrite (store_fields_declared now kwargs _ f Hnd Hf).
    apply (field_value_is_Some now kwargs c f Hm). now apply Hreq.
Qed.

(** X12: [Upload.start_date] is never taken from the caller: passing
    [start_date] to [Upload(...)] raises [TypeError], and every
    constructed upload has the time of the call as its [start_date]. *)
Theorem Upload_start_date_is_now (now : datetime) (kwargs : attrs) :
  (is_Some (kwargs !! "start_date") ->
   dataclass_construct Upload_class now kwargs = Err TypeError) /\
  (forall r, dataclass_construct Upload_class now kwargs = Ok r ->
             r !! "start_date" = Some (VDate now)).
Proof.
  split.
  - intros Hs. apply construct_with_unexpected.
    exists "start_date". split; [exact Hs|].
    apply (bool_decide_unpack _). vm_compute. exact I.
  - intros r Hok.
    assert (Hnd : NoDup (map fname (fields Upload_class)))
      by (apply (bool_decide_unpack _); vm_compute; exact I).
    destruct (construct_with_stores now kwargs TypeError Upload_class r Hnd
                (fun a key _ => eq_refl) Hok) as [Hdecl _].
    apply (Hdecl {| fname := "start_date"; fdefault := Now; finit := false |});
      [|discriminate].
    unfold Upload_class, dataclass. cbn [fields].
    do 11 apply list_elem_of_further. apply list_elem_of_here.
Qed.

(** [Upload(id=1, task=..., monitor=..., filepath=...)] at time 5: the
    passed path is stored and [uploaded] is its default. *)
Lemma dataclass_construct_stores_witness :
  exists r,
    Upload_class ∈ @dataclasses plain_filter /\
    dataclass_construct Upload_class 5 upload_kwargs = Ok r /\
    r !! "filepath" = Some (VStr (of_ascii "/tmp/file")) /\
    r !! "uploaded" = Some (VInt 0).
Proof.
  pose (r := post_init Upload_class
               (store_fields 5 (fields Upload_class) upload_kwargs)).
  assert (Hok : dataclass_construct Upload_class 5 upload_kwargs = Ok r).
  { apply construct_with_complete.
    - apply (proj1 (missing_nil_iff _ _)). vm_compute. reflexivity.
    - apply (proj1 (unexpected_nil_iff _ _)). vm_compute. reflexivity. }
  assert (Hc : Upload_class ∈ @dataclasses plain_filter).
  { unfold dataclasses. do 3 apply list_elem_of_further.
    apply list_elem_of_here. }
  destruct (@dataclass_construct_stores plain_filter Upload_class 5
              upload_kwargs r Hc Hok) as [Hdecl _].
  exists r. split; [exact Hc|]. split; [exact Hok|]. split.
  - refine (eq_trans (Hdecl (fld "filepath" NoDefault) _ _) _).
    + unfold Upload_class, dataclass. cbn [fields].
      do 3 apply list_elem_of_further. apply list_elem_of_here.
    + discriminate.
    + vm_compute. reflexivity.
  - refine (eq_trans (Hdecl (fld "uploaded" (Value (VInt 0))) _ _) _).
    + unfold Upload_class, dataclass. cbn [fields].
      do 5 apply list_elem_of_further. apply list_elem_of_here.
    + discriminate.
    + vm_compute. reflexivity.
Defined.

(** The same call with [start_date] passed raises; without it the upload
    starts at the time of the call. *)
Lemma Upload_start_date_is_now_witness :
  dataclass_construct Upload_class 5 (<["start_date" := VDate 0]> upload_kwargs)
  = Err TypeError /\
  exists r, dataclass_construct Upload_class 5 upload_kwargs = Ok r /\
            r !! "start_date" = Some (VDate 5).
Proof.
  split.
  - apply (proj1 (Upload_start_date_is_now 5
                    (<["start_date" := VDate 0]> upload_kwargs))).
    exists (VDate 0). apply lookup_insert_eq.
  - pose (r := post_init Upload_class
                 (store_fields 5 (fields Upload_class) upload_kwargs)).
    assert (Hok : dataclass_construct Upload_class 5 upload_kwargs = Ok r).
    { apply construct_with_complete.
      - apply (proj1 (missing_nil_iff _ _)). vm_compute. reflexivity.
      - apply (proj1 (unexpected_nil_iff _ _)). vm_compute. reflexivity. }
    exists r. split; [exact Hok|].
    exact (proj2 (Upload_start_date_is_now 5 upload_kwargs) r Hok).
Defined.

(** ** Rooms: where the code is the documented order *)

(** X14: [Room.__lt__] is the order its docstring describes (state, then
    descending last event date, then lower-cased name) whenever the two
    rooms differ in [left], or have the same [inviter_id], or neither
    was left and at least one has no inviter. *)
Theorem Room_lt_documented_order `{Lower} (r1 r2 : Room.t) :
  Room.left r1 <> Room.left r2 \/
  Room.inviter_id r1 = Room.inviter_id r2 \/
  (Room.left r1 = false /\ Room.left r2 = false /\
   (Room.inviter_id r1 = [] \/ Room.inviter_id r2 = [])) ->
  Room.lt r1 r2 = RoomDoc.lt r1 r2.
Proof. apply Room_lt_documented_when. Qed.

(** Two joined rooms: the one with the later event first, in the code
    as in the docstring. *)
Lemma Room_lt_documented_order_witness :
  Room.inviter_id room_joined = Room.inviter_id (room "!k:example.org" "" false 1) /\
  @Room.lt ascii_lower room_joined (room "!k:example.org" "" false 1)
  = @RoomDoc.lt ascii_lower room_joined (room "!k:example.org" "" false 1) /\
  @Room.lt ascii_lower room_joined (room "!k:example.org" "" false 1) = true.
Proof.
  split; [reflexivity|]. split; [|reflexivity].
  apply (@Room_lt_documented_order ascii_lower). right. left. reflexivity.
Defined.
